(** * crypto_exchange_handler: the exchange template and its candle store

    A shallow embedding of [crypto_exchange_handler/exchange_template.py]:
    the [ExchangeAPI] base class, its unimplemented capability methods, and
    the two data-processing methods [dump_market_data_to_file] and
    [load_market_data_file], together with the parts of Python's [csv]
    module and of text-mode file iteration that these two methods drive.

    Modelling conventions.
    - Text is [string]; a file holds its decoded text.  The file system is a
      finite map from paths to texts.
    - Methods are computations in a state-and-exception monad over [world]:
      the attributes of [self], the file system, and a trace of the
      observable actions (prints, opens, retrieval calls).
    - Python floats are a parameter ([FloatModel]): a type with the two
      conversions the code relies on, [repr] (used by [csv.writer]) and
      [float(str)] (used by the loader).
    - The [csv] reader is the state machine of CPython's [_csv] module for
      the default dialect; its configurable field-size limit is left out. *)

From Stdlib Require Import ZArith Ascii String List Lia DecimalString DecimalZ.
From stdpp Require Import base option gmap strings list.

Import ListNotations.
Local Open Scope string_scope.
Local Open Scope Z_scope.

#[local] Arguments String.append _ _ : simpl nomatch.

(** ** Characters and strings *)

Definition LF : ascii := "010"%char.
Definition CR : ascii := "013"%char.
Definition COMMA : ascii := ","%char.
Definition DQUOTE : ascii := "034"%char.
Definition PIPE : ascii := "|"%char.

(** The line ends: the one text-mode reading yields and the one the
    writer emits. *)
Definition NL : string := String LF EmptyString.
Definition CRLF : string := String CR (String LF EmptyString).

(** A character that neither the [csv] writer configured below nor the
    reader treats specially. *)
Definition csv_plain (c : ascii) : bool :=
  negb (Ascii.eqb c COMMA || Ascii.eqb c PIPE || Ascii.eqb c DQUOTE ||
        Ascii.eqb c CR || Ascii.eqb c LF).

(** [s.find(sub)]: the lowest index at which [sub] occurs in [s], or [-1]. *)
Fixpoint find_from (sub s : string) (i : Z) : Z :=
  if String.prefix sub s then i
  else match s with
       | EmptyString => -1
       | String _ rest => find_from sub rest (i + 1)
       end.

Definition str_find (s sub : string) : Z := find_from sub s 0.

(** [sub] occurs somewhere in [s]. *)
Definition occurs (sub s : string) : Prop :=
  exists a b, s = a ++ sub ++ b.

(** [s.endswith(suffix)]. *)
Fixpoint str_endswith (s suffix : string) : bool :=
  if String.eqb s suffix then true
  else match s with
       | EmptyString => false
       | String _ rest => str_endswith rest suffix
       end.

(** [str.lower] on ASCII text. *)
Definition is_upper (c : ascii) : bool :=
  let n := N_of_ascii c in ((65 <=? n) && (n <=? 90))%N.

Definition lower_char (c : ascii) : ascii :=
  if is_upper c then ascii_of_N (N_of_ascii c + 32) else c.

Fixpoint str_lower (s : string) : string :=
  match s with
  | EmptyString => EmptyString
  | String c rest => String (lower_char c) (str_lower rest)
  end.

(** Every character of [s] satisfies [p]. *)
Fixpoint str_all (p : ascii -> bool) (s : string) : bool :=
  match s with
  | EmptyString => true
  | String c rest => p c && str_all p rest
  end.

(** Some character of [s] satisfies [p]. *)
Fixpoint str_any (p : ascii -> bool) (s : string) : bool :=
  match s with
  | EmptyString => false
  | String c rest => p c || str_any p rest
  end.

(** [sep.join(parts)]. *)
Fixpoint str_join (sep : string) (parts : list string) : string :=
  match parts with
  | [] => ""
  | [p] => p
  | p :: rest => p ++ sep ++ str_join sep rest
  end.

(** [str(n)] for an integer. *)
Definition str_of_Z (z : Z) : string := NilEmpty.string_of_int (Z.to_int z).

(** ** Text-mode files

    [open(file, encoding="utf-8")] reads with universal newlines: CR LF
    and a lone CR both become LF, and iteration yields the lines with
    their terminating LF kept. *)

Fixpoint universal_newlines (s : string) : string :=
  match s with
  | EmptyString => EmptyString
  | String c rest =>
      if Ascii.eqb c CR then
        match rest with
        | EmptyString => String LF EmptyString
        | String c' rest' =>
            if Ascii.eqb c' LF then String LF (universal_newlines rest')
            else String LF (universal_newlines rest)
        end
      else String c (universal_newlines rest)
  end.

Fixpoint split_lines (s : string) : list string :=
  match s with
  | EmptyString => []
  | String c rest =>
      if Ascii.eqb c LF then String c EmptyString :: split_lines rest
      else match split_lines rest with
           | [] => [String c EmptyString]
           | l :: ls => String c l :: ls
           end
  end.

Definition text_lines (content : string) : list string :=
  split_lines (universal_newlines content).

Definition is_cr (c : ascii) : bool := Ascii.eqb c CR.

(** The shape of a line that text-mode iteration can yield: no CR, and
    no LF before the last character. *)
Fixpoint line_ok (l : string) : bool :=
  match l with
  | EmptyString => true
  | String c rest =>
      match rest with
      | EmptyString => negb (Ascii.eqb c CR)
      | String _ _ => negb (Ascii.eqb c LF || Ascii.eqb c CR) && line_ok rest
      end
  end.

(** ** Values, records and exceptions *)

(** The floating-point numbers of the host language, with the two
    conversions the code uses: [float_repr x] is [repr(x)] and
    [float_of_string s] is [float(s)], [None] standing for [ValueError]. *)
Class FloatModel := {
  float : Type;
  float_repr : float -> string;
  float_of_string : string -> option float
}.

Inductive exn : Type :=
  | NotImplementedError
  | IndexError
  | ValueError
  | FileNotFoundError
  | CsvError
  | ExchangeError (msg : string).

Inductive outcome (A : Type) : Type :=
  | Return (a : A)
  | Raise (e : exn).
Arguments Return {A} a.
Arguments Raise {A} e.

(** The attributes set by [ExchangeAPI.__init__]. *)
Record ExchangeAPI := {
  name : string;
  access_key : string;
  secret_key : string;
  api_passphrase : option string
}.

(** Observable actions, in the order they happen. *)
Inductive event : Type :=
  | EvPrint (msg : string)
  | EvOpenRead (path : string)
  | EvOpenWrite (path : string)
  | EvGetLastCandles (symbol interval : string) (amount : Z)
  | EvGetCandles (symbol interval start : string) (end_ : option string).

Record world := {
  this : ExchangeAPI;
  fs : gmap string string;
  trace : list event
}.

Definition set_fs (m : gmap string string) (w : world) : world :=
  {| this := this w; fs := m; trace := trace w |}.
Definition log (e : event) (w : world) : world :=
  {| this := this w; fs := fs w; trace := trace w ++ [e] |}.

(** ** The method monad *)

Definition M (A : Type) : Type := world -> outcome A * world.

Definition ret {A} (a : A) : M A := fun w => (Return a, w).
Definition raise {A} (e : exn) : M A := fun w => (Raise e, w).
Definition bind {A B} (m : M A) (k : A -> M B) : M B :=
  fun w => match m w with
           | (Return a, w') => k a w'
           | (Raise e, w') => (Raise e, w')
           end.
Definition lift {A} (o : outcome A) : M A := fun w => (o, w).
Definition modify (f : world -> world) : M unit := fun w => (Return tt, f w).
Definition get_world : M world := fun w => (Return w, w).

Notation "x <- m ;; k" := (bind m (fun x => k))
  (at level 100, m at next level, right associativity).
Notation "m ;;; k" := (bind m (fun _ => k))
  (at level 100, right associativity).

(** [print(msg)]. *)
Definition print (msg : string) : M unit := modify (log (EvPrint msg)).

(** [open(file, encoding="utf-8")] followed by reading the text. *)
Definition open_read (file : string) : M string :=
  modify (log (EvOpenRead file)) ;;;
  w <- get_world ;;
  match fs w !! file with
  | Some content => ret content
  | None => raise FileNotFoundError
  end.

(** [open(file, "w", newline="", encoding="utf-8")]: the file is created
    or truncated; nothing written to it later is translated. *)
Definition open_write (file : string) : M unit :=
  modify (log (EvOpenWrite file)) ;;;
  modify (fun w => set_fs (<[file := ""]> (fs w)) w).

(** [csvfile.write(text)] on a file opened by [open_write]. *)
Definition file_write (file text : string) : M unit :=
  modify (fun w =>
    set_fs (<[file := default "" (fs w !! file) ++ text]> (fs w)) w).

(** ** The [csv] reader, default dialect

    Delimiter [,], quote character the double quote, [doublequote] on, no
    escape character, not strict.  The states that only an escape
    character can reach are left out. *)

Inductive pstate : Type :=
  | START_RECORD
  | START_FIELD
  | IN_FIELD
  | IN_QUOTED_FIELD
  | QUOTE_IN_QUOTED_FIELD
  | EAT_CRNL.

Record parser := {
  p_fields : list string;
  p_field : string;
  p_state : pstate
}.

(** What the reader is fed: the characters of a line, then an end-of-line
    marker. *)
Inductive input : Type :=
  | Ch (c : ascii)
  | EOL.

Definition parse_reset : parser :=
  {| p_fields := []; p_field := ""; p_state := START_RECORD |}.

Definition set_state (s : pstate) (p : parser) : parser :=
  {| p_fields := p_fields p; p_field := p_field p; p_state := s |}.

Definition parse_add_char (c : ascii) (p : parser) : parser :=
  {| p_fields := p_fields p;
     p_field := p_field p ++ String c EmptyString;
     p_state := p_state p |}.

Definition parse_save_field (p : parser) : parser :=
  {| p_fields := p_fields p ++ [p_field p];
     p_field := "";
     p_state := p_state p |}.

Definition is_newline (c : ascii) : bool := Ascii.eqb c LF || Ascii.eqb c CR.

Definition start_field (p : parser) (i : input) : parser :=
  match i with
  | EOL => set_state START_RECORD (parse_save_field p)
  | Ch c =>
      if is_newline c then set_state EAT_CRNL (parse_save_field p)
      else if Ascii.eqb c DQUOTE then set_state IN_QUOTED_FIELD p
      else if Ascii.eqb c COMMA then set_state START_FIELD (parse_save_field p)
      else set_state IN_FIELD (parse_add_char c p)
  end.

Definition parse_process_char (p : parser) (i : input) : outcome parser :=
  match p_state p with
  | START_RECORD =>
      match i with
      | EOL => Return p
      | Ch c =>
          if is_newline c then Return (set_state EAT_CRNL p)
          else Return (start_field p i)
      end
  | START_FIELD => Return (start_field p i)
  | IN_FIELD =>
      match i with
      | EOL => Return (set_state START_RECORD (parse_save_field p))
      | Ch c =>
          if is_newline c then Return (set_state EAT_CRNL (parse_save_field p))
          else if Ascii.eqb c COMMA then
            Return (set_state START_FIELD (parse_save_field p))
          else Return (parse_add_char c p)
      end
  | IN_QUOTED_FIELD =>
      match i with
      | EOL => Return p
      | Ch c =>
          if Ascii.eqb c DQUOTE then Return (set_state QUOTE_IN_QUOTED_FIELD p)
          else Return (parse_add_char c p)
      end
  | QUOTE_IN_QUOTED_FIELD =>
      match i with
      | EOL => Return (set_state START_RECORD (parse_save_field p))
      | Ch c =>
          if Ascii.eqb c DQUOTE then
            Return (set_state IN_QUOTED_FIELD (parse_add_char c p))
          else if Ascii.eqb c COMMA then
            Return (set_state START_FIELD (parse_save_field p))
          else if is_newline c then
            Return (set_state EAT_CRNL (parse_save_field p))
          else Return (set_state IN_FIELD (parse_add_char c p))
      end
  | EAT_CRNL =>
      match i with
      | EOL => Return (set_state START_RECORD p)
      | Ch c => if is_newline c then Return p else Raise CsvError
      end
  end.

(** The characters of one line, in order. *)
Fixpoint parse_chars (p : parser) (line : string) : outcome parser :=
  match line with
  | EmptyString => Return p
  | String c rest =>
      match parse_process_char p (Ch c) with
      | Return p' => parse_chars p' rest
      | Raise e => Raise e
      end
  end.

Definition parse_line (p : parser) (line : string) : outcome parser :=
  match parse_chars p line with
  | Return p' => parse_process_char p' EOL
  | Raise e => Raise e
  end.

Definition is_START_RECORD (s : pstate) : bool :=
  match s with START_RECORD => true | _ => false end.
Definition is_IN_QUOTED_FIELD (s : pstate) : bool :=
  match s with IN_QUOTED_FIELD => true | _ => false end.

(** The rows the reader yields over the lines of a file, in order, and the
    error that ends the iteration, if any.  A record is returned once a
    line leaves the machine in [START_RECORD]; at the end of the input a
    record still open is returned as it stands. *)
Fixpoint reader_rows (p : parser) (lines : list string)
  : list (list string) * option exn :=
  match lines with
  | [] =>
      if negb (String.eqb (p_field p) "") || is_IN_QUOTED_FIELD (p_state p)
      then ([p_fields (parse_save_field p)], None)
      else ([], None)
  | line :: rest =>
      match parse_line p line with
      | Raise e => ([], Some e)
      | Return p' =>
          if is_START_RECORD (p_state p') then
            let (rows, err) := reader_rows parse_reset rest in
            (p_fields p' :: rows, err)
          else reader_rows p' rest
      end
  end.

Definition csv_reader (lines : list string) : list (list string) * option exn :=
  reader_rows parse_reset lines.

(** The machine is about to start a field and has gathered nothing of it. *)
Definition at_field_start (p : parser) : Prop :=
  (p_state p = START_RECORD \/ p_state p = START_FIELD) /\ p_field p = "".

(** A row the reader gives back as it was written: plain fields, at
    least one, and not the single empty field. *)
Definition plain_row (fields : list string) : Prop :=
  fields <> [] /\ fields <> [""] /\
  Forall (fun f => str_all csv_plain f = true) fields.

(** The machine is outside a quoted field. *)
Definition unquoted (p : parser) : Prop :=
  p_state p <> IN_QUOTED_FIELD /\ p_state p <> QUOTE_IN_QUOTED_FIELD.

(** The fields the reader finds in one line taken on its own. *)
Definition line_fields (l : string) : list string :=
  match parse_line parse_reset l with
  | Return p => p_fields p
  | Raise _ => []
  end.

Definition is_dquote (c : ascii) : bool := Ascii.eqb c DQUOTE.

(** The machine is not in the state that follows a line end. *)
Definition not_eating (p : parser) : Prop := p_state p <> EAT_CRNL.

(** ** The [csv] writer as [dump_market_data_to_file] configures it

    [csv.writer(csvfile, delimiter=",", quotechar="|",
    quoting=csv.QUOTE_MINIMAL)], with the default line terminator CR LF
    and [doublequote] on. *)

Definition needs_quoting (c : ascii) : bool :=
  Ascii.eqb c COMMA || Ascii.eqb c PIPE || Ascii.eqb c CR || Ascii.eqb c LF.

(** The characters of a field as copied into the record: a quote character
    is doubled. *)
Fixpoint join_field_data (s : string) : string :=
  match s with
  | EmptyString => EmptyString
  | String c rest =>
      if Ascii.eqb c PIPE then String PIPE (String c (join_field_data rest))
      else String c (join_field_data rest)
  end.

Definition join_append (num_fields : nat) (field : string) (quoted : bool)
  : string :=
  (if (0 <? num_fields)%nat then "," else "") ++
  (if quoted || str_any needs_quoting field
   then "|" ++ join_field_data field ++ "|"
   else join_field_data field).

Fixpoint join_fields (num_fields : nat) (fields : list string) : string :=
  match fields with
  | [] => ""
  | f :: rest => join_append num_fields f false ++ join_fields (S num_fields) rest
  end.

Section CandleStore.

Context {FM : FloatModel}.

(** The values a candle record may hold. *)
Inductive pyval : Type :=
  | VNone
  | VStr (s : string)
  | VInt (z : Z)
  | VFloat (x : float).

(** A [dict] in insertion order. *)
Definition record : Type := list (string * pyval).

(** The text [writerow] gives a field: a string as it is, [None] as the
    empty string, anything else through [str]. *)
Definition field_text (v : pyval) : string :=
  match v with
  | VNone => ""
  | VStr s => s
  | VInt z => str_of_Z z
  | VFloat x => float_repr x
  end.

(** The text of one [writer.writerow(row)]: a row whose only field is
    empty is written as an empty quoted field. *)
Definition writerow_text (row : list pyval) : string :=
  let rec := join_fields 0 (map field_text row) in
  (if (0 <? length row)%nat && (String.length rec =? 0)%nat
   then join_append 0 "" true
   else rec) ++ CRLF.

(** ** The capability contract *)

(** The methods a concrete exchange class overrides.  Each takes the
    attributes of [self] and its arguments. *)
Record Methods := {
  get_all_balances : ExchangeAPI -> outcome (option (list (string * string)));
  get_balance : ExchangeAPI -> string -> outcome (option string);
  get_available_markets : ExchangeAPI -> outcome (option (list string));
  get_coin_price : ExchangeAPI -> string -> string -> outcome pyval;
  get_coins_prices : ExchangeAPI -> outcome (option (list (string * pyval)));
  get_order_book : ExchangeAPI -> string -> string -> outcome pyval;
  withdraw_asset : ExchangeAPI -> string -> string -> string -> outcome unit;
  create_order : ExchangeAPI -> string -> string -> pyval -> pyval -> outcome pyval;
  get_candles :
    ExchangeAPI -> string -> string -> string -> option string ->
    outcome (list record);
  get_last_candles :
    ExchangeAPI -> string -> string -> Z -> outcome (list record)
}.

(** The base class: every capability raises [NotImplementedError]. *)
Definition base_class : Methods := {|
  get_all_balances := fun _ => Raise NotImplementedError;
  get_balance := fun _ _ => Raise NotImplementedError;
  get_available_markets := fun _ => Raise NotImplementedError;
  get_coin_price := fun _ _ _ => Raise NotImplementedError;
  get_coins_prices := fun _ => Raise NotImplementedError;
  get_order_book := fun _ _ _ => Raise NotImplementedError;
  withdraw_asset := fun _ _ _ _ => Raise NotImplementedError;
  create_order := fun _ _ _ _ _ => Raise NotImplementedError;
  get_candles := fun _ _ _ _ _ => Raise NotImplementedError;
  get_last_candles := fun _ _ _ _ => Raise NotImplementedError
|}.


(** [self.get_last_candles(symbol, interval, amount)]. *)
Definition call_get_last_candles (cls : Methods)
    (symbol interval : string) (amount : Z) : M (list record) :=
  modify (log (EvGetLastCandles symbol interval amount)) ;;;
  w <- get_world ;;
  lift (get_last_candles cls (this w) symbol interval amount).

(** [self.get_candles(symbol, interval, start, end)]. *)
Definition call_get_candles (cls : Methods)
    (symbol interval start : string) (end_ : option string)
  : M (list record) :=
  modify (log (EvGetCandles symbol interval start end_)) ;;;
  w <- get_world ;;
  lift (get_candles cls (this w) symbol interval start end_).

(** ** [dump_market_data_to_file] *)

(** The loop [for line in candles]. *)
Fixpoint write_rows (file : string) (candles : list record) : M unit :=
  match candles with
  | [] => ret tt
  | line :: rest =>
      file_write file (writerow_text (map snd line)) ;;;
      write_rows file rest
  end.

(** The [with open(file, "w", ...)] block. *)
Definition write_candles (file : string) (candles : list record) : M unit :=
  open_write file ;;;
  first <- match candles with
           | [] => raise IndexError
           | c :: _ => ret c
           end ;;
  file_write file (writerow_text (map (fun kv => VStr (fst kv)) first)) ;;;
  write_rows file candles.

Definition dump_market_data_to_file (cls : Methods)
    (symbol interval file : string) (amount : option Z)
    (start end_ : option string) : M unit :=
  match amount with
  | Some a =>
      candles <- call_get_last_candles cls symbol interval a ;;
      write_candles file candles
  | None =>
      match start with
      | Some s =>
          candles <- call_get_candles cls symbol interval s end_ ;;
          write_candles file candles
      | None => print "ERROR: Wrong paramaters. Provide amount or start"
      end
  end.

(** ** [load_market_data_file] *)

(** What the loader returns: [-1] or a tuple of records. *)
Inductive loaded : Type :=
  | LInt (z : Z)
  | LTuple (candles : list record).

(** [row[i]]. *)
Definition row_get (row : list string) (i : nat) : outcome string :=
  match row !! i with
  | Some s => Return s
  | None => Raise IndexError
  end.

(** [float(row[i])]. *)
Definition float_at (row : list string) (i : nat) : outcome float :=
  match row_get row i with
  | Return s =>
      match float_of_string s with
      | Some x => Return x
      | None => Raise ValueError
      end
  | Raise e => Raise e
  end.

(** The dictionary built from one data row. *)
Definition candle_of_row (row : list string) : outcome record :=
  match float_at row 0 with
  | Raise e => Raise e
  | Return ts =>
  match float_at row 1 with
  | Raise e => Raise e
  | Return o =>
  match float_at row 2 with
  | Raise e => Raise e
  | Return h =>
  match float_at row 3 with
  | Raise e => Raise e
  | Return l =>
  match float_at row 4 with
  | Raise e => Raise e
  | Return c =>
      Return [("ts", VFloat ts); ("open", VFloat o); ("high", VFloat h);
              ("low", VFloat l); ("close", VFloat c)]
  end end end end end.

(** The loop [for row in csv_reader], with its counter and accumulator. *)
Fixpoint load_rows (rows : list (list string)) (line_count : nat)
    (candles : list record) : outcome (list record) :=
  match rows with
  | [] => Return candles
  | row :: rest =>
      if negb (line_count =? 0)%nat then
        match candle_of_row row with
        | Return temp => load_rows rest (S line_count) (candles ++ [temp])
        | Raise e => Raise e
        end
      else load_rows rest (S line_count) candles
  end.

Definition load_market_data_file (file : string) : M loaded :=
  if str_find file ".csv" =? -1 then
    print "ERROR: Please provide .csv file" ;;;
    ret (LInt (-1))
  else
    content <- open_read file ;;
    let (rows, err) := csv_reader (text_lines content) in
    candles <- lift (load_rows rows 0 []) ;;
    match err with
    | Some e => raise e
    | None => ret (LTuple candles)
    end.

(** ** The operations of the class, as a caller may run them *)

Inductive core_op : Type :=
  | OpGetAllBalances
  | OpGetBalance (coin : string)
  | OpGetAvailableMarkets
  | OpGetCoinPrice (name_ quote : string)
  | OpGetCoinsPrices
  | OpGetOrderBook (market side : string)
  | OpWithdrawAsset (asset target_addr amount : string)
  | OpCreateOrder (market side : string) (price amount : pyval)
  | OpGetCandles (symbol interval start : string) (end_ : option string)
  | OpGetLastCandles (symbol interval : string) (amount : Z)
  | OpDump (symbol interval file : string) (amount : option Z)
      (start end_ : option string)
  | OpLoad (file : string).

(** A method call on [self] whose result the caller drops. *)
Definition call {A} (f : ExchangeAPI -> outcome A) : M unit :=
  w <- get_world ;;
  _ <- lift (f (this w)) ;;
  ret tt.

Definition run_op (cls : Methods) (op : core_op) : M unit :=
  match op with
  | OpGetAllBalances => call (get_all_balances cls)
  | OpGetBalance coin => call (fun self => get_balance cls self coin)
  | OpGetAvailableMarkets => call (get_available_markets cls)
  | OpGetCoinPrice n quote => call (fun self => get_coin_price cls self n quote)
  | OpGetCoinsPrices => call (get_coins_prices cls)
  | OpGetOrderBook market side =>
      call (fun self => get_order_book cls self market side)
  | OpWithdrawAsset asset addr amount =>
      call (fun self => withdraw_asset cls self asset addr amount)
  | OpCreateOrder market side price amount =>
      call (fun self => create_order cls self market side price amount)
  | OpGetCandles symbol interval start end_ =>
      _ <- call_get_candles cls symbol interval start end_ ;; ret tt
  | OpGetLastCandles symbol interval amount =>
      _ <- call_get_last_candles cls symbol interval amount ;; ret tt
  | OpDump symbol interval file amount start end_ =>
      dump_market_data_to_file cls symbol interval file amount start end_
  | OpLoad file => _ <- load_market_data_file file ;; ret tt
  end.


(** The retrieval calls of a trace. *)
Definition is_retrieval (e : event) : bool :=
  match e with
  | EvGetLastCandles _ _ _ | EvGetCandles _ _ _ _ => true
  | _ => false
  end.


(** The file accesses of a trace. *)
Definition is_file_access (e : event) : bool :=
  match e with
  | EvOpenRead _ | EvOpenWrite _ => true
  | _ => false
  end.

Definition file_accesses (t : list event) : list event :=
  List.filter is_file_access t.

(** A candle as the loader builds it. *)
Definition candle (ts o h l c : float) : record :=
  [("ts", VFloat ts); ("open", VFloat o); ("high", VFloat h);
   ("low", VFloat l); ("close", VFloat c)].

(** A record with exactly the keys [ts], [open], [high], [low], [close],
    in that order, and float values. *)
Definition is_candle (r : record) : Prop :=
  exists ts o h l c, r = candle ts o h l c.

(** The text the loop [for line in candles] writes. *)
Fixpoint rows_text (candles : list record) : string :=
  match candles with
  | [] => ""
  | line :: rest => writerow_text (map snd line) ++ rows_text rest
  end.

(** The fields [writerow] is given for one record: its values as text. *)
Definition row_fields (r : record) : list string :=
  map field_text (map snd r).

(** The text of the header row, taken from the first record. *)
Definition header_text (first : record) : string :=
  writerow_text (map (fun kv => VStr (fst kv)) first).

(** A data row of exactly five columns that all read as floats, next to
    the candle it stands for. *)
Definition row_parses (row : list string) (cd : record) : Prop :=
  exists s0 s1 s2 s3 s4 ts o h l c,
    row = [s0; s1; s2; s3; s4] /\
    float_of_string s0 = Some ts /\ float_of_string s1 = Some o /\
    float_of_string s2 = Some h /\ float_of_string s3 = Some l /\
    float_of_string s4 = Some c /\
    cd = candle ts o h l c.

(** A data row with fewer than five columns, or with one of its first
    five columns not readable as a float. *)
Definition malformed_row (row : list string) : Prop :=
  (length row < 5)%nat \/
  exists i s, (i < 5)%nat /\ row !! i = Some s /\ float_of_string s = None.

(** A record whose first five values are floats, under any keys and
    followed by any further entries, next to the candle those five make. *)
Definition leads_with_floats (r cd : record) : Prop :=
  exists k0 k1 k2 k3 k4 ts o h l c extra,
    r = (k0, VFloat ts) :: (k1, VFloat o) :: (k2, VFloat h) ::
        (k3, VFloat l) :: (k4, VFloat c) :: extra /\
    cd = candle ts o h l c.

(** A record all of whose values are written as plain text. *)
Definition plain_values (r : record) : Prop :=
  Forall (fun f => str_all csv_plain f = true) (row_fields r).

(** An exchange class whose retrievals find no candle. *)
Definition empty_exchange : Methods := {|
  get_all_balances := get_all_balances base_class;
  get_balance := get_balance base_class;
  get_available_markets := get_available_markets base_class;
  get_coin_price := get_coin_price base_class;
  get_coins_prices := get_coins_prices base_class;
  get_order_book := get_order_book base_class;
  withdraw_asset := withdraw_asset base_class;
  create_order := create_order base_class;
  get_candles := fun _ _ _ _ _ => Return [];
  get_last_candles := fun _ _ _ _ => Return []
|}.

(** An exchange class whose two retrievals both end in [res]. *)
Definition exchange_returning (res : outcome (list record)) : Methods := {|
  get_all_balances := get_all_balances base_class;
  get_balance := get_balance base_class;
  get_available_markets := get_available_markets base_class;
  get_coin_price := get_coin_price base_class;
  get_coins_prices := get_coins_prices base_class;
  get_order_book := get_order_book base_class;
  withdraw_asset := withdraw_asset base_class;
  create_order := create_order base_class;
  get_candles := fun _ _ _ _ _ => res;
  get_last_candles := fun _ _ _ _ => res
|}.

End CandleStore.

(** ** A concrete float model

    Floats whose values are the integers, written in decimal.  It serves
    to run the definitions on concrete files. *)
Module ZFloat.

Definition repr (z : Z) : string := str_of_Z z.

Definition parse (s : string) : option Z :=
  match NilEmpty.int_of_string s with
  | Some d => Some (Z.of_int d)
  | None => None
  end.

Definition model : FloatModel :=
  {| float := Z; float_repr := repr; float_of_string := parse |}.

End ZFloat.

(** ** Sample data *)

Definition no_credentials : ExchangeAPI :=
  {| name := ""; access_key := ""; secret_key := ""; api_passphrase := None |}.

(** A world with no file and nothing done yet. *)
Definition empty_world : world :=
  {| this := no_credentials; fs := ∅; trace := [] |}.

Definition with_file (path content : string) (w : world) : world :=
  set_fs (<[path := content]> (fs w)) w.

Module Sample.

#[local] Existing Instance ZFloat.model.

(** Two candles with integral values. *)
Definition candles : list record := [candle 1 10 12 9 11; candle 2 11 13 10 12].

(** An exchange class that serves [candles] on both retrieval paths. *)
Definition exchange : Methods := {|
  get_all_balances := get_all_balances base_class;
  get_balance := get_balance base_class;
  get_available_markets := get_available_markets base_class;
  get_coin_price := get_coin_price base_class;
  get_coins_prices := get_coins_prices base_class;
  get_order_book := get_order_book base_class;
  withdraw_asset := withdraw_asset base_class;
  create_order := create_order base_class;
  get_candles := fun _ _ _ _ _ => Return candles;
  get_last_candles := fun _ _ _ _ => Return candles
|}.

(** A stored table: a header and two data rows. *)
Definition table : string :=
  "ts,open,high,low,close" ++ NL ++ "1,10,12,9,11" ++ NL ++
  "2,11,13,10,12" ++ NL.

(** The same table with a second data row of four columns. *)
Definition short_row_table : string :=
  "ts,open,high,low,close" ++ NL ++ "1,10,12,9,11" ++ NL ++
  "2,11,13,10" ++ NL.

(** The table under other column names. *)
Definition renamed_table : string :=
  "time,o,h,l,c" ++ NL ++ "1,10,12,9,11" ++ NL ++ "2,11,13,10,12" ++ NL.

(** A table with a blank line after its first data row. *)
Definition blank_line_table : string :=
  "ts,open,high,low,close" ++ NL ++ "1,10,12,9,11" ++ NL ++ NL.

(** Two records with other keys than the loader's and a sixth field. *)
Definition rich_first : record :=
  [("time", VFloat 1); ("o", VFloat 10); ("h", VFloat 12); ("l", VFloat 9);
   ("c", VFloat 11); ("volume", VInt 250)].

Definition rich_second : record :=
  [("time", VFloat 2); ("o", VFloat 11); ("h", VFloat 13); ("l", VFloat 10);
   ("c", VFloat 12); ("volume", VNone)].

Definition rich_candles : list record := [rich_first; rich_second].

End Sample.

(** * Properties *)

(** ** Strings *)

Lemma append_nil_r (s : string) : s ++ "" = s.
Proof. induction s as [|c s IH]; simpl; [reflexivity | now rewrite IH]. Qed.

Lemma append_assoc (a b c : string) : (a ++ b) ++ c = a ++ (b ++ c).
Proof. induction a as [|x a IH]; simpl; [reflexivity | now rewrite IH]. Qed.

Lemma length_append (a b : string) :
  String.length (a ++ b) = (String.length a + String.length b)%nat.
Proof. induction a as [|x a IH]; simpl; [reflexivity | now rewrite IH]. Qed.

Lemma str_join_cons (sep f f' : string) (rest : list string) :
  str_join sep (f :: f' :: rest) = f ++ sep ++ str_join sep (f' :: rest).
Proof. reflexivity. Qed.

Lemma lower_char_not_upper (c : ascii) : is_upper (lower_char c) = false.
Proof. destruct c as [[] [] [] [] [] [] [] []]; reflexivity. Qed.


Lemma str_lower_idempotent (s : string) : str_lower (str_lower s) = str_lower s.
Proof.
  induction s as [|c s IH]; simpl; [reflexivity |].
  rewrite IH. f_equal.
  unfold lower_char at 1. now rewrite lower_char_not_upper.
Qed.

(** ** The world after each primitive *)

Lemma set_fs_same (w : world) : set_fs (fs w) w = w.
Proof. now destruct w. Qed.

Section Facts.

Context {FM : FloatModel}.




Lemma file_accesses_app (t1 t2 : list event) :
  file_accesses (t1 ++ t2)%list = (file_accesses t1 ++ file_accesses t2)%list.
Proof. unfold file_accesses. apply List.filter_app. Qed.

(** ** The capability contract *)

(** C8. On the base class every capability method raises
    [NotImplementedError], whatever the object and the arguments; this
    fault is none of the errors an exchange request can report. *)
Theorem base_class_unimplemented
    (self : ExchangeAPI) (coin name_ quote market side : string)
    (asset target_addr amount symbol interval start : string)
    (end_ : option string) (price qty : pyval) (n : Z) :
  get_all_balances base_class self = Raise NotImplementedError /\
  get_balance base_class self coin = Raise NotImplementedError /\
  get_available_markets base_class self = Raise NotImplementedError /\
  get_coin_price base_class self name_ quote = Raise NotImplementedError /\
  get_coins_prices base_class self = Raise NotImplementedError /\
  get_order_book base_class self market side = Raise NotImplementedError /\
  withdraw_asset base_class self asset target_addr amount
    = Raise NotImplementedError /\
  create_order base_class self market side price qty
    = Raise NotImplementedError /\
  get_candles base_class self symbol interval start end_
    = Raise NotImplementedError /\
  get_last_candles base_class self symbol interval n
    = Raise NotImplementedError /\
  (forall msg, NotImplementedError <> ExchangeError msg).
Proof. repeat split; discriminate. Qed.

(** Run on the base class, each operation that is a bare capability call
    ends in that fault and leaves the files alone. *)
Lemma base_class_op_raises (op : core_op) (w : world) :
  (forall symbol interval file amount start end_,
     op <> OpDump symbol interval file amount start end_) ->
  (forall file, op <> OpLoad file) ->
  fst (run_op base_class op w) = Raise NotImplementedError /\
  fs (snd (run_op base_class op w)) = fs w.
Proof.
  intros Hdump Hload.
  destruct op; try (split; reflexivity).
  - exfalso. eapply Hdump. reflexivity.
  - exfalso. eapply Hload. reflexivity.
Qed.

(** ** [dump_market_data_to_file]: selection *)



(** When the selected retrieval finds nothing, the file is opened, hence
    created empty or truncated, and reading the first record faults. *)
Lemma write_candles_empty (file : string) (w : world) :
  write_candles file [] w =
    (Raise IndexError,
     set_fs (<[file := ""]> (fs w)) (log (EvOpenWrite file) w)).
Proof. reflexivity. Qed.

(** C5. An exchange whose [get_last_candles] returns no candle: the dump
    ends in [IndexError], raised on reading the first record, after the
    destination has been created empty. *)
Theorem dump_empty_retrieval_faults :
  let r := dump_market_data_to_file empty_exchange "BTC" "1h" "data.csv"
             (Some 5) None None empty_world in
  fst r = Raise IndexError /\
  fs (snd r) !! "data.csv" = Some "" /\
  trace (snd r) = [EvGetLastCandles "BTC" "1h" 5; EvOpenWrite "data.csv"].
Proof. repeat split. Qed.

(** ** The credential bundle *)



Lemma load_frame (file : string) (w : world) :
  this (snd (load_market_data_file file w)) = this w /\
  fs (snd (load_market_data_file file w)) = fs w.
Proof.
  unfold load_market_data_file.
  destruct (str_find file ".csv" =? -1); [split; reflexivity |].
  unfold open_read, bind, modify, get_world, lift, ret, raise. simpl.
  destruct (fs w !! file) as [content|]; simpl; [| split; reflexivity].
  destruct (csv_reader (text_lines content)) as [rows err].
  unfold bind, lift.
  destruct (load_rows rows 0 []); [| split; reflexivity].
  destruct err; split; reflexivity.
Qed.




(** ** [load_market_data_file]: the file-type check *)

(** A path in which [.csv] occurs nowhere is refused: the message is
    printed, [-1] is returned and the file is not opened. *)
Lemma load_refuses_without_csv (file : string) (w : world) :
  str_find file ".csv" = -1 ->
  load_market_data_file file w =
    (Return (LInt (-1)), log (EvPrint "ERROR: Please provide .csv file") w).
Proof.
  intros H. unfold load_market_data_file. rewrite H. reflexivity.
Qed.

Example load_data_txt (w : world) :
  load_market_data_file "data.txt" w =
    (Return (LInt (-1)), log (EvPrint "ERROR: Please provide .csv file") w).
Proof. apply load_refuses_without_csv. reflexivity. Qed.

End Facts.

(** C4. The check looks for [.csv] anywhere in the path.  The path
    [data.csv.bak] does not end in [.csv], yet the file is opened, read
    and its candles are returned. *)
Theorem load_reads_non_csv_extension :
  let w := with_file "data.csv.bak" Sample.table empty_world in
  str_endswith "data.csv.bak" ".csv" = false /\
  load_market_data_file (FM := ZFloat.model) "data.csv.bak" w =
    (Return (LTuple Sample.candles), log (EvOpenRead "data.csv.bak") w).
Proof. split; reflexivity. Qed.

(** ** Lines of a text-mode file *)

Lemma string_ind2 (P : string -> Prop) :
  P "" ->
  (forall c, P (String c "")) ->
  (forall c c' s, P s -> P (String c' s) -> P (String c (String c' s))) ->
  forall s, P s.
Proof.
  intros H0 H1 H2 s.
  assert (H : P s /\ forall c, P (String c s)); [| exact (proj1 H)].
  induction s as [|c' s [IHs IHc]].
  - split; [exact H0 | exact H1].
  - split; [apply IHc |]. intros c. apply H2; [exact IHs | apply IHc].
Qed.

Lemma universal_newlines_no_cr (s : string) :
  str_any is_cr (universal_newlines s) = false.
Proof.
  induction s as [| c | c c' s IHs IHc] using string_ind2.
  - reflexivity.
  - simpl. destruct (Ascii.eqb c CR) eqn:E; simpl; [reflexivity |].
    unfold is_cr. now rewrite E.
  - change (universal_newlines (String c (String c' s))) with
      (if Ascii.eqb c CR then
         if Ascii.eqb c' LF then String LF (universal_newlines s)
         else String LF (universal_newlines (String c' s))
       else String c (universal_newlines (String c' s))).
    destruct (Ascii.eqb c CR) eqn:E.
    + destruct (Ascii.eqb c' LF); simpl; [exact IHs | exact IHc].
    + simpl str_any. unfold is_cr at 1. rewrite E. exact IHc.
Qed.

Lemma split_lines_ok (s : string) :
  str_any is_cr s = false -> Forall (fun l => line_ok l = true) (split_lines s).
Proof.
  induction s as [|c s IH]; simpl; intros H; [constructor |].
  apply orb_false_iff in H as [Hc Hs]. unfold is_cr in Hc.
  specialize (IH Hs).
  destruct (Ascii.eqb c LF) eqn:E.
  - constructor; [| exact IH]. simpl. now rewrite Hc.
  - destruct (split_lines s) as [|l ls].
    + constructor; [| constructor]. simpl. now rewrite Hc.
    + inversion IH as [|? ? Hl Hls]; subst.
      constructor; [| exact Hls].
      destruct l as [|c0 l0]; simpl; [now rewrite Hc |].
      rewrite E, Hc. simpl. exact Hl.
Qed.

Lemma text_lines_ok (content : string) :
  Forall (fun l => line_ok l = true) (text_lines content).
Proof. apply split_lines_ok, universal_newlines_no_cr. Qed.

(** ** The reader never fails on the lines of a text-mode file *)

Lemma process_char_plain (p : parser) (c : ascii) :
  is_newline c = false -> not_eating p ->
  exists p', parse_process_char p (Ch c) = Return p' /\ not_eating p'.
Proof.
  intros Hc Hp. unfold not_eating in *.
  unfold parse_process_char, start_field.
  destruct (p_state p) eqn:Es; rewrite ?Hc;
    try (destruct (Ascii.eqb c DQUOTE)); try (destruct (Ascii.eqb c COMMA));
    try (eexists; split; [reflexivity | simpl; congruence]).
  all: congruence.
Qed.

Lemma process_char_any (p : parser) (c : ascii) :
  not_eating p -> exists p', parse_process_char p (Ch c) = Return p'.
Proof.
  intros Hp. unfold not_eating in *.
  unfold parse_process_char, start_field.
  destruct (p_state p) eqn:Es; destruct (is_newline c);
    try (destruct (Ascii.eqb c DQUOTE)); try (destruct (Ascii.eqb c COMMA));
    try (eexists; reflexivity).
  all: congruence.
Qed.

Lemma process_eol (p : parser) :
  exists p', parse_process_char p EOL = Return p' /\ not_eating p'.
Proof.
  unfold not_eating, parse_process_char, start_field.
  destruct (p_state p) eqn:Es;
    (eexists; split; [reflexivity | simpl; congruence]).
Qed.

Lemma parse_chars_ok (l : string) (p : parser) :
  line_ok l = true -> not_eating p -> exists p', parse_chars p l = Return p'.
Proof.
  revert p. induction l as [|c rest IH]; intros p Hl Hp; simpl.
  - eauto.
  - simpl in Hl. destruct rest as [|c0 rest0].
    + destruct (process_char_any p c Hp) as [p1 H1]. rewrite H1. simpl. eauto.
    + apply andb_true_iff in Hl as [Hc Hrest].
      apply negb_true_iff in Hc.
      destruct (process_char_plain p c Hc Hp) as (p1 & H1 & Hp1).
      rewrite H1. apply IH; assumption.
Qed.

Lemma parse_line_ok (l : string) (p : parser) :
  line_ok l = true -> not_eating p ->
  exists p', parse_line p l = Return p' /\ not_eating p'.
Proof.
  intros Hl Hp. unfold parse_line.
  destruct (parse_chars_ok l p Hl Hp) as [p1 H1]. rewrite H1.
  apply process_eol.
Qed.

Lemma reader_rows_no_error (lines : list string) (p : parser) :
  Forall (fun l => line_ok l = true) lines -> not_eating p ->
  snd (reader_rows p lines) = None.
Proof.
  revert p. induction lines as [|l ls IH]; intros p Hls Hp; simpl.
  - now destruct (negb (String.eqb (p_field p) "") ||
                  is_IN_QUOTED_FIELD (p_state p)).
  - inversion Hls as [|? ? Hl Hls']; subst.
    destruct (parse_line_ok l p Hl Hp) as (p' & H' & Hp'). rewrite H'.
    destruct (is_START_RECORD (p_state p')).
    + specialize (IH parse_reset Hls').
      destruct (reader_rows parse_reset ls) as [rows err]. simpl in *.
      apply IH. unfold not_eating. simpl. congruence.
    + apply IH; assumption.
Qed.

(** Over a file read in text mode the reader yields rows and no error. *)
Lemma csv_reader_no_error (content : string) :
  snd (csv_reader (text_lines content)) = None.
Proof.
  apply reader_rows_no_error; [apply text_lines_ok |].
  unfold not_eating. simpl. congruence.
Qed.

(** One line gives at most one row. *)
Lemma csv_reader_one_line (l : string) :
  line_ok l = true ->
  exists rows, csv_reader [l] = (rows, None) /\ (length rows <= 1)%nat.
Proof.
  intros Hl. unfold csv_reader. simpl.
  assert (Hp : not_eating parse_reset) by (unfold not_eating; simpl; congruence).
  destruct (parse_line_ok l parse_reset Hl Hp) as (p' & H' & _). rewrite H'.
  destruct (is_START_RECORD (p_state p')).
  - eexists; split; [reflexivity | simpl; lia].
  - destruct (negb (String.eqb (p_field p') "") ||
              is_IN_QUOTED_FIELD (p_state p'));
      (eexists; split; [reflexivity | simpl; lia]).
Qed.

(** ** [load_market_data_file]: rows to candles *)

Section Loader.

Context {FM : FloatModel}.

Lemma float_at_return (row : list string) (i : nat) (x : float) :
  float_at row i = Return x <->
  exists s, row !! i = Some s /\ float_of_string s = Some x.
Proof.
  unfold float_at, row_get. split.
  - destruct (row !! i) as [s|]; [| discriminate].
    destruct (float_of_string s) as [y|] eqn:E; [| discriminate].
    intros [= <-]. eauto.
  - intros (s & -> & ->). reflexivity.
Qed.


(** The record built from a row, when all five conversions succeed. *)
Lemma candle_of_row_return (row : list string) (cd : record) :
  candle_of_row row = Return cd <->
  exists ts o h l c,
    float_at row 0 = Return ts /\ float_at row 1 = Return o /\
    float_at row 2 = Return h /\ float_at row 3 = Return l /\
    float_at row 4 = Return c /\ cd = candle ts o h l c.
Proof.
  unfold candle_of_row. split.
  - destruct (float_at row 0) as [ts|]; [| discriminate].
    destruct (float_at row 1) as [o|]; [| discriminate].
    destruct (float_at row 2) as [h|]; [| discriminate].
    destruct (float_at row 3) as [l|]; [| discriminate].
    destruct (float_at row 4) as [c|]; [| discriminate].
    intros [= <-]. exists ts, o, h, l, c. repeat split; reflexivity.
  - intros (ts & o & h & l & c & -> & -> & -> & -> & -> & ->). reflexivity.
Qed.


Lemma candle_of_row_parses (row : list string) (cd : record) :
  row_parses row cd -> candle_of_row row = Return cd.
Proof.
  intros (s0 & s1 & s2 & s3 & s4 & ts & o & h & l & c & -> & H0 & H1 & H2 &
          H3 & H4 & ->).
  apply candle_of_row_return. exists ts, o, h, l, c.
  repeat split; apply float_at_return; eexists; split; try reflexivity;
    assumption.
Qed.


(** Past the header, the loop appends one candle per row, in order. *)
Lemma load_rows_data (rows : list (list string)) (n : nat) (acc : list record) :
  Forall (fun r => exists cd, row_parses r cd) rows ->
  exists cds, load_rows rows (S n) acc = Return (acc ++ cds)%list /\
              Forall2 row_parses rows cds.
Proof.
  revert n acc. induction rows as [|r rows IH]; intros n acc Hall; simpl.
  - exists []. rewrite app_nil_r. split; [reflexivity | constructor].
  - inversion Hall as [|? ? [cd Hr] Hrest]; subst.
    rewrite (candle_of_row_parses r cd Hr).
    destruct (IH (S n) (acc ++ [cd])%list Hrest) as (cds & Hload & Hcds).
    exists (cd :: cds). rewrite Hload, <- app_assoc. simpl.
    split; [reflexivity | constructor; assumption].
Qed.


(** What the loader does once the path has passed the check and the file
    is there. *)
Lemma load_unfold (file content : string) (w : world) :
  str_find file ".csv" <> -1 ->
  fs w !! file = Some content ->
  load_market_data_file file w =
    (match load_rows (fst (csv_reader (text_lines content))) 0 [] with
     | Return cds => Return (LTuple cds)
     | Raise e => Raise e
     end, log (EvOpenRead file) w).
Proof.
  intros Hpath Hfile. unfold load_market_data_file.
  apply Z.eqb_neq in Hpath. rewrite Hpath.
  unfold open_read, bind, modify, get_world, lift, ret, raise. simpl.
  rewrite Hfile.
  pose proof (csv_reader_no_error content) as Herr.
  destruct (csv_reader (text_lines content)) as [rows err]. simpl in *.
  subst err. now destruct (load_rows rows 0 []).
Qed.

(** C6. When every row after the first has exactly five columns that all
    read as floats, the loader skips the first row, whatever it holds,
    and returns one candle per remaining row, in file order, with the
    columns taken as [ts], [open], [high], [low], [close]. *)
Theorem load_well_formed_file
    (file content : string) (header : list string)
    (rows : list (list string)) (w : world) :
  str_find file ".csv" <> -1 ->
  fs w !! file = Some content ->
  fst (csv_reader (text_lines content)) = header :: rows ->
  Forall (fun r => exists cd, row_parses r cd) rows ->
  exists candles,
    load_market_data_file file w =
      (Return (LTuple candles), log (EvOpenRead file) w) /\
    Forall2 row_parses rows candles.
Proof.
  intros Hpath Hfile Hrows Hwf.
  rewrite (load_unfold file content w Hpath Hfile), Hrows. simpl.
  destruct (load_rows_data rows 0 [] Hwf) as (cds & Hload & Hcds).
  exists cds. rewrite Hload. simpl. auto.
Qed.


(** C10. A file of at most one line, behind a path that passes the check,
    loads as the empty tuple. *)
Theorem load_header_only
    (file content : string) (w : world) :
  str_find file ".csv" <> -1 ->
  fs w !! file = Some content ->
  (length (text_lines content) <= 1)%nat ->
  load_market_data_file file w =
    (Return (LTuple []), log (EvOpenRead file) w).
Proof.
  intros Hpath Hfile Hlen.
  rewrite (load_unfold file content w Hpath Hfile).
  pose proof (text_lines_ok content) as Hok.
  destruct (text_lines content) as [|l [|l' ls]]; simpl in Hlen; [| | lia].
  - reflexivity.
  - inversion Hok as [|? ? Hl _]; subst.
    destruct (csv_reader_one_line l Hl) as (rs & Hrs & Hn). rewrite Hrs.
    destruct rs as [|r [|r' rs]]; simpl in Hn; [reflexivity | reflexivity | lia].
Qed.

End Loader.

(** ** What the writer puts in the file *)

Section Writer.

Context {FM : FloatModel}.

Lemma write_rows_content (file : string) (rows : list record) (cur : string)
    (w : world) :
  fs w !! file = Some cur ->
  write_rows file rows w =
    (Return tt, set_fs (<[file := cur ++ rows_text rows]> (fs w)) w).
Proof.
  revert cur w. induction rows as [|r rows IH]; intros cur w Hfile; simpl.
  - rewrite append_nil_r, (insert_id _ _ _ Hfile), set_fs_same. reflexivity.
  - unfold bind, file_write, modify. rewrite Hfile. simpl.
    erewrite IH; [| simpl; apply lookup_insert_eq].
    simpl. rewrite insert_insert_eq, append_assoc. reflexivity.
Qed.

(** A non-empty sequence is written as a header row, from the keys of the
    first record, then one row per record. *)
Lemma write_candles_content (file : string) (c : record) (rest : list record)
    (w : world) :
  write_candles file (c :: rest) w =
    (Return tt,
     set_fs (<[file := header_text c ++ rows_text (c :: rest)]> (fs w))
            (log (EvOpenWrite file) w)).
Proof.
  unfold write_candles, open_write, bind, modify, file_write, ret. simpl.
  rewrite lookup_insert_eq. simpl.
  change (file_write file (writerow_text (map snd c)) ;;; write_rows file rest)
    with (write_rows file (c :: rest)).
  erewrite write_rows_content; [| simpl; apply lookup_insert_eq].
  simpl. rewrite !insert_insert_eq. reflexivity.
Qed.

End Writer.

(** ** Plain fields pass through the writer and the reader unchanged *)

Lemma csv_plain_chars (c : ascii) :
  csv_plain c = true ->
  Ascii.eqb c COMMA = false /\ Ascii.eqb c PIPE = false /\
  Ascii.eqb c DQUOTE = false /\ Ascii.eqb c CR = false /\
  Ascii.eqb c LF = false.
Proof.
  unfold csv_plain. intros H. apply negb_true_iff in H.
  repeat (apply orb_false_iff in H as [H ?]). auto.
Qed.

Lemma plain_needs_no_quoting (f : string) :
  str_all csv_plain f = true -> str_any needs_quoting f = false.
Proof.
  induction f as [|c f IH]; simpl; intros H; [reflexivity |].
  apply andb_true_iff in H as [Hc Hf].
  destruct (csv_plain_chars c Hc) as (H1 & H2 & _ & H4 & H5).
  unfold needs_quoting. rewrite H1, H2, H4, H5. simpl. auto.
Qed.

Lemma plain_field_data (f : string) :
  str_all csv_plain f = true -> join_field_data f = f.
Proof.
  induction f as [|c f IH]; simpl; intros H; [reflexivity |].
  apply andb_true_iff in H as [Hc Hf].
  destruct (csv_plain_chars c Hc) as (_ & H2 & _).
  rewrite H2, (IH Hf). reflexivity.
Qed.

Lemma join_append_plain (n : nat) (f : string) :
  str_all csv_plain f = true ->
  join_append n f false = (if (0 <? n)%nat then "," else "") ++ f.
Proof.
  intros H. unfold join_append.
  now rewrite (plain_needs_no_quoting f H), (plain_field_data f H).
Qed.

Lemma join_fields_plain (fields : list string) (n : nat) :
  Forall (fun f => str_all csv_plain f = true) fields ->
  join_fields n fields =
    match fields with
    | [] => ""
    | _ :: _ => (if (0 <? n)%nat then "," else "") ++ str_join "," fields
    end.
Proof.
  revert n. induction fields as [|f rest IH]; intros n Hall; [reflexivity |].
  inversion Hall as [|? ? Hf Hrest]; subst.
  cbn [join_fields]. rewrite (join_append_plain n f Hf), (IH (S n) Hrest).
  destruct rest as [|f' rest'].
  - cbn [str_join]. now rewrite !append_nil_r.
  - cbn [str_join Nat.ltb Nat.leb]. now rewrite !append_assoc.
Qed.

Lemma str_join_two_nonempty (f f' : string) (rest : list string) :
  (String.length (str_join "," (f :: f' :: rest)) =? 0)%nat = false.
Proof.
  cbn [str_join]. rewrite length_append. simpl.
  apply Nat.eqb_neq. lia.
Qed.

Section PlainRows.

Context {FM : FloatModel}.

(** A row of at least two plain fields is written as the fields joined by
    commas, then CR LF. *)
Lemma writerow_plain (v v' : pyval) (row : list pyval) :
  Forall (fun x => str_all csv_plain (field_text x) = true) (v :: v' :: row) ->
  writerow_text (v :: v' :: row) =
    str_join "," (map field_text (v :: v' :: row)) ++ CRLF.
Proof.
  intros Hall. unfold writerow_text.
  rewrite join_fields_plain; [| now apply Forall_map].
  cbn [map Nat.ltb Nat.leb length].
  change ("" ++ ?x) with x.
  rewrite str_join_two_nonempty. reflexivity.
Qed.

End PlainRows.

(** ** Reading back lines that end in CR LF *)

Lemma is_newline_false (c : ascii) :
  is_newline c = false -> Ascii.eqb c LF = false /\ Ascii.eqb c CR = false.
Proof. unfold is_newline. intros H. now apply orb_false_iff in H. Qed.

Lemma universal_newlines_line (l rest : string) :
  str_any is_newline l = false ->
  universal_newlines (l ++ CRLF ++ rest) = l ++ NL ++ universal_newlines rest.
Proof.
  induction l as [|c l IH]; intros H.
  - reflexivity.
  - simpl in H. apply orb_false_iff in H as [Hc Hl].
    apply is_newline_false in Hc as [_ Hcr].
    cbn [String.append universal_newlines]. rewrite Hcr.
    now rewrite (IH Hl).
Qed.

Lemma split_lines_line (l rest : string) :
  str_any is_newline l = false ->
  split_lines (l ++ NL ++ rest) = (l ++ NL) :: split_lines rest.
Proof.
  induction l as [|c l IH]; intros H.
  - reflexivity.
  - simpl in H. apply orb_false_iff in H as [Hc Hl].
    apply is_newline_false in Hc as [Hlf _].
    cbn [String.append split_lines]. rewrite Hlf.
    now rewrite (IH Hl).
Qed.

(** The text made of [lines], each closed by CR LF. *)
Lemma text_lines_crlf (lines : list string) :
  Forall (fun l => str_any is_newline l = false) lines ->
  text_lines (fold_right (fun l acc => l ++ CRLF ++ acc) "" lines) =
    map (fun l => l ++ NL) lines.
Proof.
  unfold text_lines.
  induction lines as [|l ls IH]; intros Hall; [reflexivity |].
  inversion Hall as [|? ? Hl Hls]; subst.
  cbn [fold_right map].
  rewrite (universal_newlines_line _ _ Hl), (split_lines_line _ _ Hl).
  now rewrite (IH Hls).
Qed.

Lemma str_any_append p (a b : string) :
  str_any p (a ++ b) = str_any p a || str_any p b.
Proof.
  induction a as [|x a IH]; simpl; [reflexivity |].
  rewrite IH. now destruct (p x).
Qed.

Lemma plain_no_newline (f : string) :
  str_all csv_plain f = true -> str_any is_newline f = false.
Proof.
  induction f as [|c f IH]; simpl; intros H; [reflexivity |].
  apply andb_true_iff in H as [Hc Hf].
  destruct (csv_plain_chars c Hc) as (_ & _ & _ & H4 & H5).
  unfold is_newline. rewrite H4, H5. simpl. auto.
Qed.

Lemma str_join_no_newline (fields : list string) :
  Forall (fun f => str_all csv_plain f = true) fields ->
  str_any is_newline (str_join "," fields) = false.
Proof.
  induction fields as [|f rest IH]; intros Hall; [reflexivity |].
  inversion Hall as [|? ? Hf Hrest]; subst.
  destruct rest as [|f' rest'].
  - simpl. now apply plain_no_newline.
  - rewrite str_join_cons, !str_any_append, (plain_no_newline f Hf), (IH Hrest).
    reflexivity.
Qed.

(** ** The reader on rows of plain fields *)

Lemma parser_eta (p : parser) (s : pstate) :
  p_state p = s ->
  {| p_fields := p_fields p; p_field := p_field p; p_state := s |} = p.
Proof. destruct p. simpl. now intros ->. Qed.

Lemma in_field_plain (s t : string) (p : parser) :
  str_all csv_plain s = true ->
  p_state p = IN_FIELD ->
  parse_chars p (s ++ t) =
    parse_chars {| p_fields := p_fields p;
                   p_field := p_field p ++ s;
                   p_state := IN_FIELD |} t.
Proof.
  revert p. induction s as [|c s IH]; intros p Hs Hp.
  - cbn [String.append]. rewrite append_nil_r, (parser_eta p _ Hp). reflexivity.
  - simpl in Hs. apply andb_true_iff in Hs as [Hc Hs].
    destruct (csv_plain_chars c Hc) as (H1 & _ & _ & H4 & H5).
    cbn [String.append parse_chars].
    unfold parse_process_char. rewrite Hp.
    unfold is_newline. rewrite H5, H4, H1. cbn [orb].
    rewrite (IH (parse_add_char c p) Hs Hp).
    cbn [parse_add_char p_fields p_field]. rewrite append_assoc. reflexivity.
Qed.

Lemma first_plain_char (c : ascii) (p : parser) :
  at_field_start p -> csv_plain c = true ->
  parse_process_char p (Ch c) =
    Return {| p_fields := p_fields p;
              p_field := String c "";
              p_state := IN_FIELD |}.
Proof.
  intros [[Hs | Hs] Hf] Hc;
    destruct (csv_plain_chars c Hc) as (H1 & _ & H3 & H4 & H5);
    unfold parse_process_char, start_field, is_newline;
    rewrite Hs, H5, H4, ?H3, ?H1; cbn [orb];
    unfold set_state, parse_add_char; cbn [p_fields p_field];
    rewrite Hf; reflexivity.
Qed.

Lemma comma_at_field_start (p : parser) :
  at_field_start p ->
  parse_process_char p (Ch COMMA) =
    Return {| p_fields := p_fields p ++ [""];
              p_field := "";
              p_state := START_FIELD |}.
Proof.
  intros [[Hs | Hs] Hf];
    unfold parse_process_char, start_field; rewrite Hs; cbn;
    unfold set_state, parse_save_field; cbn [p_fields p_field];
    rewrite Hf; reflexivity.
Qed.

Lemma field_then_comma (f t : string) (p : parser) :
  at_field_start p -> str_all csv_plain f = true ->
  parse_chars p (f ++ String COMMA t) =
    parse_chars {| p_fields := p_fields p ++ [f];
                   p_field := "";
                   p_state := START_FIELD |} t.
Proof.
  intros Hp Hf. destruct f as [|c f].
  - cbn [String.append parse_chars]. now rewrite (comma_at_field_start p Hp).
  - simpl in Hf. apply andb_true_iff in Hf as [Hc Hf].
    cbn [String.append parse_chars]. rewrite (first_plain_char c p Hp Hc).
    rewrite in_field_plain; [| exact Hf | reflexivity].
    cbn [parse_chars p_fields p_field]. reflexivity.
Qed.

Lemma field_then_newline (f : string) (p : parser) :
  at_field_start p -> str_all csv_plain f = true ->
  p_state p = START_FIELD \/ f <> "" ->
  parse_chars p (f ++ NL) =
    Return {| p_fields := p_fields p ++ [f];
              p_field := "";
              p_state := EAT_CRNL |}.
Proof.
  intros Hp Hf Hcase. destruct f as [|c f].
  - destruct Hcase as [Hs | Hne]; [| congruence].
    destruct Hp as [_ Hfield].
    cbn [String.append NL parse_chars].
    unfold parse_process_char, start_field. rewrite Hs. cbn.
    unfold set_state, parse_save_field. cbn [p_fields p_field].
    rewrite Hfield. reflexivity.
  - simpl in Hf. apply andb_true_iff in Hf as [Hc Hf].
    cbn [String.append parse_chars]. rewrite (first_plain_char c p Hp Hc).
    rewrite in_field_plain; [| exact Hf | reflexivity].
    reflexivity.
Qed.

Lemma parse_chars_plain_row (fields : list string) (p : parser) :
  at_field_start p ->
  fields <> [] ->
  p_state p = START_FIELD \/ fields <> [""] ->
  Forall (fun f => str_all csv_plain f = true) fields ->
  parse_chars p (str_join "," fields ++ NL) =
    Return {| p_fields := (p_fields p ++ fields)%list;
              p_field := "";
              p_state := EAT_CRNL |}.
Proof.
  revert p. induction fields as [|f rest IH]; intros p Hp Hne Hcase Hall;
    [congruence |].
  inversion Hall as [|? ? Hf Hrest]; subst.
  destruct rest as [|f' rest'].
  - cbn [str_join]. apply field_then_newline; [assumption | assumption |].
    destruct Hcase as [Hs | Hn]; [now left | right; congruence].
  - rewrite str_join_cons, !append_assoc.
    change ("," ++ ?x) with (String COMMA x).
    rewrite (field_then_comma f _ p Hp Hf).
    rewrite IH; [| split; [now right | reflexivity] | discriminate | now left
                 | exact Hrest].
    cbn [p_fields]. rewrite <- app_assoc. reflexivity.
Qed.

Lemma parse_line_plain_row (fields : list string) :
  plain_row fields ->
  parse_line parse_reset (str_join "," fields ++ NL) =
    Return {| p_fields := fields; p_field := ""; p_state := START_RECORD |}.
Proof.
  intros (Hne & Hne' & Hall). unfold parse_line.
  rewrite parse_chars_plain_row;
    [reflexivity | split; [now left | reflexivity] | exact Hne | now right
    | exact Hall].
Qed.

(** Lines made of plain rows read back as those rows. *)
Lemma csv_reader_plain_rows (rows : list (list string)) :
  Forall plain_row rows ->
  csv_reader (map (fun r => str_join "," r ++ NL) rows) = (rows, None).
Proof.
  unfold csv_reader.
  induction rows as [|r rows IH]; intros Hall; [reflexivity |].
  inversion Hall as [|? ? Hr Hrows]; subst.
  cbn [map reader_rows]. rewrite (parse_line_plain_row r Hr).
  cbn [p_state is_START_RECORD p_fields]. now rewrite (IH Hrows).
Qed.

(** ** Dump, then load *)

Section RoundTrip.

Context {FM : FloatModel}.

Hypothesis float_round_trip : forall x, float_of_string (float_repr x) = Some x.
Hypothesis float_repr_plain : forall x, str_all csv_plain (float_repr x) = true.

Lemma candle_row_plain (r : record) :
  is_candle r -> plain_row (row_fields r).
Proof.
  intros (ts & o & h & l & c & ->). unfold plain_row, row_fields. simpl.
  split; [discriminate |]. split; [discriminate |].
  repeat constructor; apply float_repr_plain.
Qed.

Lemma candle_row_text (r : record) :
  is_candle r ->
  writerow_text (map snd r) = str_join "," (row_fields r) ++ CRLF.
Proof.
  intros (ts & o & h & l & c & ->). unfold row_fields.
  cbn [candle map snd].
  rewrite writerow_plain; [reflexivity |].
  repeat constructor; apply float_repr_plain.
Qed.

Lemma candle_header_text (r : record) :
  is_candle r -> header_text r = "ts,open,high,low,close" ++ CRLF.
Proof. intros (ts & o & h & l & c & ->). reflexivity. Qed.

Lemma candle_row_parses (r : record) :
  is_candle r -> candle_of_row (row_fields r) = Return r.
Proof.
  intros (ts & o & h & l & c & ->). apply candle_of_row_parses.
  exists (float_repr ts), (float_repr o), (float_repr h), (float_repr l),
    (float_repr c), ts, o, h, l, c.
  repeat split; apply float_round_trip.
Qed.

Lemma rows_text_lines (seq : list record) :
  Forall is_candle seq ->
  rows_text seq =
    fold_right (fun l acc => l ++ CRLF ++ acc) ""
      (map (str_join ",") (map row_fields seq)).
Proof.
  induction seq as [|r seq IH]; intros Hall; [reflexivity |].
  inversion Hall as [|? ? Hr Hseq]; subst.
  cbn [rows_text map fold_right].
  now rewrite (candle_row_text r Hr), (IH Hseq), append_assoc.
Qed.

Lemma load_rows_candles (seq : list record) (n : nat) (acc : list record) :
  Forall is_candle seq ->
  load_rows (map row_fields seq) (S n) acc = Return (acc ++ seq)%list.
Proof.
  revert n acc. induction seq as [|r seq IH]; intros n acc Hall.
  - simpl. now rewrite app_nil_r.
  - inversion Hall as [|? ? Hr Hseq]; subst.
    cbn [map load_rows Nat.eqb negb]. rewrite (candle_row_parses r Hr).
    rewrite (IH _ _ Hseq), <- app_assoc. reflexivity.
Qed.

(** The rows read back from the text a dump leaves in the file. *)
Lemma csv_reader_dump_text (c : record) (rest : list record) :
  Forall is_candle (c :: rest) ->
  csv_reader (text_lines (header_text c ++ rows_text (c :: rest))) =
    (["ts"; "open"; "high"; "low"; "close"] :: map row_fields (c :: rest), None).
Proof.
  intros Hall. inversion Hall as [|? ? Hc Hrest]; subst.
  rewrite (candle_header_text c Hc), (rows_text_lines _ Hall), append_assoc.
  change ("ts,open,high,low,close" ++ CRLF ++
          fold_right (fun l acc => l ++ CRLF ++ acc) ""
            (map (str_join ",") (map row_fields (c :: rest))))
    with (fold_right (fun l acc => l ++ CRLF ++ acc) ""
            (map (str_join ",")
               (["ts"; "open"; "high"; "low"; "close"] ::
                map row_fields (c :: rest)))).
  - rewrite text_lines_crlf.
    + rewrite map_map. apply csv_reader_plain_rows.
      constructor.
      * split; [discriminate |]. split; [discriminate |].
        repeat constructor.
      * apply Forall_map. eapply Forall_impl; [exact Hall |].
        intros r Hr. now apply candle_row_plain.
    + apply Forall_map. constructor.
      * apply str_join_no_newline. repeat constructor.
      * apply Forall_map. eapply Forall_impl; [exact Hall |].
        intros r Hr. simpl. apply str_join_no_newline.
        now destruct (candle_row_plain r Hr) as (_ & _ & H).
Qed.

(** Writing a non-empty sequence of candles to [file] and loading [file]
    gives the sequence back. *)
Lemma write_then_load (file : string) (seq : list record) (w : world) :
  str_find file ".csv" <> -1 ->
  seq <> [] ->
  Forall is_candle seq ->
  fst (write_candles file seq w) = Return tt /\
  fst (load_market_data_file file (snd (write_candles file seq w))) =
    Return (LTuple seq).
Proof.
  intros Hpath Hne Hall. destruct seq as [|c rest]; [congruence |].
  rewrite write_candles_content. cbn [fst snd]. split; [reflexivity |].
  rewrite (load_unfold file (header_text c ++ rows_text (c :: rest)));
    [| exact Hpath | apply lookup_insert_eq].
  rewrite (csv_reader_dump_text c rest Hall).
  cbn [fst load_rows Nat.eqb negb].
  rewrite (load_rows_candles (c :: rest) 0 [] Hall). reflexivity.
Qed.

(** C1. A non-empty sequence of candles, each with the keys [ts], [open],
    [high], [low], [close] in that order and float values, retrieved by
    the dump on either path and written to a path that passes the
    loader's check, is returned as it was by loading that path.  Floats
    are taken to read back from their [repr] as themselves, and [repr]
    to use none of the characters special to the table format. *)
Theorem dump_load_round_trip
    (cls : Methods) (symbol interval file : string) (amount : option Z)
    (start end_ : option string) (a : Z) (s : string) (seq : list record)
    (w : world) :
  str_find file ".csv" <> -1 ->
  seq <> [] ->
  Forall is_candle seq ->
  (amount = Some a /\
   get_last_candles cls (this w) symbol interval a = Return seq) \/
  (amount = None /\ start = Some s /\
   get_candles cls (this w) symbol interval s end_ = Return seq) ->
  let r := dump_market_data_to_file cls symbol interval file
             amount start end_ w in
  fst r = Return tt /\
  fst (load_market_data_file file (snd r)) = Return (LTuple seq).
Proof.
  intros Hpath Hne Hall Hsel. cbv zeta.
  destruct Hsel as [[-> Hget] | (-> & -> & Hget)];
    unfold dump_market_data_to_file, call_get_last_candles, call_get_candles,
      bind, modify, get_world, lift;
    cbn [fst snd this log]; rewrite Hget;
    apply write_then_load; assumption.
Qed.

End RoundTrip.

(** ** The integer float model satisfies the two assumptions *)

Lemma string_of_uint_plain (d : Decimal.uint) :
  str_all csv_plain (NilEmpty.string_of_uint d) = true.
Proof. induction d; simpl; auto. Qed.

Lemma str_of_Z_plain (z : Z) : str_all csv_plain (str_of_Z z) = true.
Proof.
  unfold str_of_Z, NilEmpty.string_of_int.
  destruct (Z.to_int z) as [d | d]; simpl; apply string_of_uint_plain.
Qed.

Lemma ZFloat_round_trip (z : Z) : ZFloat.parse (ZFloat.repr z) = Some z.
Proof.
  unfold ZFloat.parse, ZFloat.repr, str_of_Z.
  rewrite NilEmpty.isi. f_equal. apply DecimalZ.of_to.
Qed.

Lemma ZFloat_repr_plain (z : Z) : str_all csv_plain (ZFloat.repr z) = true.
Proof. apply str_of_Z_plain. Qed.

(** ** Worked examples *)

(** The scenario of two candles: the file the dump leaves behind. *)
Example dump_scenario_file :
  fs (snd (dump_market_data_to_file (FM := ZFloat.model) Sample.exchange
             "BTC" "1h" "x.csv" (Some 2) None None empty_world)) !! "x.csv" =
    Some ("ts,open,high,low,close" ++ CRLF ++ "1,10,12,9,11" ++ CRLF ++
          "2,11,13,10,12" ++ CRLF).
Proof. reflexivity. Qed.

(** Written to a path without [.csv], the same file is refused by the
    loader. *)
Example dump_then_load_txt :
  let r := dump_market_data_to_file (FM := ZFloat.model) Sample.exchange
             "BTC" "1h" "data.txt" (Some 2) None None empty_world in
  fst r = Return tt /\
  fst (load_market_data_file (FM := ZFloat.model) "data.txt" (snd r)) =
    Return (LInt (-1)).
Proof. split; reflexivity. Qed.

(** Columns past the fifth are read by nobody. *)
Example load_ignores_extra_columns :
  fst (load_market_data_file (FM := ZFloat.model) "x.csv"
         (with_file "x.csv" ("h" ++ NL ++ "1,10,12,9,11,extra" ++ NL)
            empty_world)) =
    Return (LTuple [candle (FM := ZFloat.model) 1 10 12 9 11]).
Proof. reflexivity. Qed.

(** The row that is skipped is the first record, not the first line: a
    first line that opens a quoted field takes the following lines with
    it. *)
Example load_header_open_quote :
  fst (load_market_data_file (FM := ZFloat.model) "x.csv"
         (with_file "x.csv"
            (String DQUOTE "ts" ++ NL ++ "1,10,12,9,11" ++ NL) empty_world)) =
    Return (LTuple []).
Proof. reflexivity. Qed.

(** A second data row of four columns: the first row is not returned. *)
Example load_short_second_row :
  fst (load_market_data_file (FM := ZFloat.model) "x.csv"
         (with_file "x.csv" Sample.short_row_table empty_world)) =
    Raise IndexError.
Proof. reflexivity. Qed.

(** A value that is not a number. *)
Example load_non_numeric :
  fst (load_market_data_file (FM := ZFloat.model) "x.csv"
         (with_file "x.csv" ("h" ++ NL ++ "1,ten,12,9,11" ++ NL)
            empty_world)) =
    Raise ValueError.
Proof. reflexivity. Qed.

(** On the base class a dump with a selection stops at the retrieval and
    opens no file. *)
Example dump_on_base_class :
  dump_market_data_to_file (FM := ZFloat.model) base_class
    "BTC" "30m" "data.csv" None (Some "2020-01-01") None empty_world =
    (Raise NotImplementedError,
     log (EvGetCandles "BTC" "30m" "2020-01-01" None) empty_world).
Proof. reflexivity. Qed.

(** ** The theorems at the sample data *)

Lemma dump_load_round_trip_witness :
  let r := dump_market_data_to_file (FM := ZFloat.model) Sample.exchange
             "BTC" "1h" "x.csv" (Some 2) None None empty_world in
  fst r = Return tt /\
  fst (load_market_data_file (FM := ZFloat.model) "x.csv" (snd r)) =
    Return (LTuple Sample.candles).
Proof.
  apply (dump_load_round_trip (FM := ZFloat.model)
           ZFloat_round_trip ZFloat_repr_plain
           Sample.exchange "BTC" "1h" "x.csv" (Some 2) None None
           2 "" Sample.candles empty_world).
  - vm_compute. discriminate.
  - discriminate.
  - repeat constructor; unfold is_candle; do 5 eexists; reflexivity.
  - left. split; reflexivity.
Defined.

Lemma load_well_formed_file_witness :
  exists candles,
    load_market_data_file (FM := ZFloat.model) "x.csv"
      (with_file "x.csv" Sample.table empty_world) =
      (Return (LTuple candles),
       log (EvOpenRead "x.csv") (with_file "x.csv" Sample.table empty_world)) /\
    Forall2 (row_parses (FM := ZFloat.model))
      [["1"; "10"; "12"; "9"; "11"]; ["2"; "11"; "13"; "10"; "12"]] candles.
Proof.
  apply (load_well_formed_file (FM := ZFloat.model) "x.csv" Sample.table
           ["ts"; "open"; "high"; "low"; "close"]).
  - vm_compute. discriminate.
  - reflexivity.
  - reflexivity.
  - repeat constructor.
    + exists (candle (FM := ZFloat.model) 1 10 12 9 11).
      exists "1", "10", "12", "9", "11", 1, 10, 12, 9, 11.
      repeat split; reflexivity.
    + exists (candle (FM := ZFloat.model) 2 11 13 10 12).
      exists "2", "11", "13", "10", "12", 2, 11, 13, 10, 12.
      repeat split; reflexivity.
Defined.


Lemma load_header_only_witness :
  load_market_data_file (FM := ZFloat.model) "x.csv"
    (with_file "x.csv" ("ts,open,high,low,close" ++ NL) empty_world) =
    (Return (LTuple []),
     log (EvOpenRead "x.csv")
       (with_file "x.csv" ("ts,open,high,low,close" ++ NL) empty_world)).
Proof.
  apply (load_header_only (FM := ZFloat.model) "x.csv"
           ("ts,open,high,low,close" ++ NL)).
  - vm_compute. discriminate.
  - reflexivity.
  - vm_compute. lia.
Defined.

(** * Further properties *)

(** ** The path check of the loader *)

Lemma prefix_occurs (sub s : string) :
  String.prefix sub s = true <-> exists b, s = sub ++ b.
Proof.
  revert s. induction sub as [|c sub IH]; intros s.
  - split; [intros _; exists s; reflexivity | intros _; now destruct s].
  - destruct s as [|c' s]; simpl.
    + split; [discriminate | intros [b Hb]; discriminate].
    + destruct (ascii_dec c c') as [<- | Hne].
      * rewrite IH. split; intros [b Hb]; exists b; [now rewrite Hb |].
        now injection Hb.
      * split; [discriminate |]. intros [b Hb]. injection Hb. congruence.
Qed.

Lemma find_from_occurs (sub s : string) (i : Z) :
  0 <= i -> (find_from sub s i <> -1 <-> occurs sub s).
Proof.
  revert i. induction s as [|c s IH]; intros i Hi.
  - cbn [find_from]. destruct (String.prefix sub "") eqn:E.
    + split; [| lia]. intros _. apply prefix_occurs in E as [b Hb].
      exists "", b. exact Hb.
    + split; [congruence |]. intros (a & b & Hab).
      destruct a; [| discriminate]. simpl in Hab.
      assert (String.prefix sub "" = true) by (apply prefix_occurs; eauto).
      congruence.
  - cbn [find_from]. destruct (String.prefix sub (String c s)) eqn:E.
    + split; [| lia]. intros _. apply prefix_occurs in E as [b Hb].
      exists "", b. exact Hb.
    + rewrite (IH (i + 1)) by lia. split.
      * intros (a & b & ->). exists (String c a), b. reflexivity.
      * intros (a & b & Hab). destruct a as [|c' a].
        -- simpl in Hab.
           assert (String.prefix sub (String c s) = true)
             by (apply prefix_occurs; eauto).
           congruence.
        -- injection Hab as _ ->. exists a, b. reflexivity.
Qed.

Lemma str_find_occurs (s sub : string) : str_find s sub <> -1 <-> occurs sub s.
Proof. unfold str_find. now apply find_from_occurs. Qed.

Lemma str_endswith_occurs (s suffix : string) :
  str_endswith s suffix = true -> occurs suffix s.
Proof.
  induction s as [|c s IH]; cbn [str_endswith].
  - destruct (String.eqb_spec "" suffix) as [<- | _]; [| discriminate].
    intros _. exists "", "". reflexivity.
  - destruct (String.eqb_spec (String c s) suffix) as [<- | _].
    + intros _. exists "", "". simpl. now rewrite append_nil_r.
    + intros H. destruct (IH H) as (a & b & ->).
      exists (String c a), b. reflexivity.
Qed.

Section MoreOnLoading.

Context {FM : FloatModel}.

(** X1. The loader refuses a path, printing its message and returning
    [-1] without opening anything, exactly when [.csv] occurs nowhere in
    the path. *)
Theorem load_refuses_iff (file : string) (w : world) :
  load_market_data_file file w =
    (Return (LInt (-1)), log (EvPrint "ERROR: Please provide .csv file") w)
  <-> ~ occurs ".csv" file.
Proof.
  rewrite <- str_find_occurs. split.
  - intros H Hfind. unfold load_market_data_file in H.
    apply Z.eqb_neq in Hfind. rewrite Hfind in H.
    assert (Ht : trace (snd (load_market_data_file file w)) =
                 trace (log (EvPrint "ERROR: Please provide .csv file") w)).
    { unfold load_market_data_file. rewrite Hfind, H. reflexivity. }
    revert Ht. unfold load_market_data_file. rewrite Hfind.
    unfold open_read, bind, modify, get_world, lift, ret, raise. simpl.
    destruct (fs w !! file) as [content|]; simpl.
    + destruct (csv_reader (text_lines content)) as [rows err].
      unfold bind, lift. destruct (load_rows rows 0 []); [destruct err |];
        simpl; intros Ht; apply app_inv_head in Ht; discriminate.
    + intros Ht. apply app_inv_head in Ht. discriminate.
  - intros H. apply load_refuses_without_csv.
    destruct (Z.eq_dec (str_find file ".csv") (-1)); [assumption | tauto].
Qed.

(** X2. A path that ends in [.csv] always passes the check: the loader
    goes on to open the file. *)
Theorem load_opens_csv_extension (file : string) (w : world) :
  str_endswith file ".csv" = true ->
  trace (snd (load_market_data_file file w)) =
    (trace w ++ [EvOpenRead file])%list.
Proof.
  intros H. apply str_endswith_occurs, str_find_occurs in H.
  unfold load_market_data_file. apply Z.eqb_neq in H. rewrite H.
  unfold open_read, bind, modify, get_world, lift, ret, raise. simpl.
  destruct (fs w !! file) as [content|]; simpl; [| reflexivity].
  destruct (csv_reader (text_lines content)) as [rows err].
  unfold bind, lift. destruct (load_rows rows 0 []); [destruct err |];
    reflexivity.
Qed.

End MoreOnLoading.

Section LoaderOutcomes.

Context {FM : FloatModel}.


Lemma candle_of_row_is_candle (row : list string) (cd : record) :
  candle_of_row row = Return cd -> is_candle cd.
Proof.
  intros H. apply candle_of_row_return in H
    as (ts & o & h & l & c & _ & _ & _ & _ & _ & ->).
  now exists ts, o, h, l, c.
Qed.

Lemma load_rows_candles_only (rows : list (list string)) (n : nat)
    (acc cds : list record) :
  Forall is_candle acc ->
  load_rows rows n acc = Return cds -> Forall is_candle cds.
Proof.
  revert n acc. induction rows as [|r rows IH]; intros n acc Hacc; simpl.
  - now intros [= <-].
  - destruct (negb (n =? 0)%nat); [| now apply IH].
    destruct (candle_of_row r) as [cd|e] eqn:E; [| discriminate].
    apply IH. apply Forall_app. split; [assumption |].
    constructor; [| constructor]. eapply candle_of_row_is_candle; eauto.
Qed.

(** The loader, whatever the path and the world. *)
Lemma load_cases (file : string) (w : world) :
  (str_find file ".csv" = -1 /\
   load_market_data_file file w =
     (Return (LInt (-1)), log (EvPrint "ERROR: Please provide .csv file") w)) \/
  (str_find file ".csv" <> -1 /\ fs w !! file = None /\
   load_market_data_file file w =
     (Raise FileNotFoundError, log (EvOpenRead file) w)) \/
  (exists content,
     str_find file ".csv" <> -1 /\ fs w !! file = Some content /\
     load_market_data_file file w =
       (match load_rows (fst (csv_reader (text_lines content))) 0 [] with
        | Return cds => Return (LTuple cds)
        | Raise e => Raise e
        end, log (EvOpenRead file) w)).
Proof.
  destruct (Z.eq_dec (str_find file ".csv") (-1)) as [Heq | Hne].
  - left. split; [assumption |]. now apply load_refuses_without_csv.
  - right. destruct (fs w !! file) as [content|] eqn:Hfile.
    + right. exists content. repeat split; try assumption.
      now apply load_unfold.
    + left. repeat split; try assumption.
      unfold load_market_data_file. apply Z.eqb_neq in Hne. rewrite Hne.
      unfold open_read, bind, modify, get_world, raise. simpl.
      now rewrite Hfile.
Qed.


(** X4. Every record of a returned tuple has exactly the keys [ts],
    [open], [high], [low], [close], in that order, with float values. *)
Theorem load_returns_candles (file : string) (w : world) (cds : list record) :
  fst (load_market_data_file file w) = Return (LTuple cds) ->
  Forall is_candle cds.
Proof.
  destruct (load_cases file w) as [[_ H] | [(_ & _ & H) | (c & _ & _ & H)]];
    rewrite H; cbn [fst]; try discriminate.
  destruct (load_rows (fst (csv_reader (text_lines c))) 0 []) as [cds'|e] eqn:E;
    [| discriminate].
  intros [= <-]. eapply load_rows_candles_only; [| exact E]. constructor.
Qed.

Lemma load_reads_fs_only (file : string) (w w' : world) :
  fs w = fs w' ->
  fst (load_market_data_file file w) = fst (load_market_data_file file w').
Proof.
  intros Hfs.
  destruct (load_cases file w) as [[F H] | [(F & G & H) | (c & F & G & H)]];
  destruct (load_cases file w')
    as [[F' H'] | [(F' & G' & H') | (c' & F' & G' & H')]];
    rewrite H, H'; cbn [fst]; try congruence.
  rewrite Hfs in G. assert (c = c') by congruence. now subst.
Qed.

(** X5. Loading is repeatable: a second load of the same path, right
    after the first, ends as the first did. *)
Theorem load_twice (file : string) (w : world) :
  fst (load_market_data_file file (snd (load_market_data_file file w))) =
  fst (load_market_data_file file w).
Proof.
  apply load_reads_fs_only. now destruct (load_frame file w).
Qed.

Lemma well_formed_row_parses (row : list string) :
  ~ malformed_row row -> exists cd, candle_of_row row = Return cd.
Proof.
  intros Hok.
  destruct (candle_of_row row) as [cd|e] eqn:E; [eauto |]. exfalso.
  assert (Hcol : forall i, (i < 5)%nat -> exists x, float_at row i = Return x).
  { intros i Hi.
    assert (Hlen : (5 <= length row)%nat).
    { destruct (le_lt_dec 5 (length row)); [assumption |].
      exfalso. apply Hok. now left. }
    destruct (lookup_lt_is_Some_2 row i) as [s Hs]; [lia |].
    destruct (float_of_string s) as [x|] eqn:Hx.
    - exists x. apply float_at_return. eauto.
    - exfalso. apply Hok. right. eauto. }
  unfold candle_of_row in E.
  destruct (Hcol 0%nat) as [x0 H0]; [lia |]. rewrite H0 in E.
  destruct (Hcol 1%nat) as [x1 H1]; [lia |]. rewrite H1 in E.
  destruct (Hcol 2%nat) as [x2 H2]; [lia |]. rewrite H2 in E.
  destruct (Hcol 3%nat) as [x3 H3]; [lia |]. rewrite H3 in E.
  destruct (Hcol 4%nat) as [x4 H4]; [lia |]. rewrite H4 in E.
  discriminate.
Qed.



(** X7. The exception of a failed load is the one raised by the first
    malformed data row; for a row with no column, such as a blank line
    leaves, it is [IndexError]. *)
Theorem load_first_malformed_row
    (file content : string) (header bad : list string)
    (good rest : list (list string)) (e : exn) (w : world) :
  str_find file ".csv" <> -1 ->
  fs w !! file = Some content ->
  fst (csv_reader (text_lines content)) = (header :: good ++ bad :: rest)%list ->
  Forall (fun r => ~ malformed_row r) good ->
  candle_of_row bad = Raise e ->
  load_market_data_file file w = (Raise e, log (EvOpenRead file) w) /\
  (bad = [] -> e = IndexError).
Proof.
  intros Hpath Hfile Hrows Hgood Hbad. split.
  - rewrite (load_unfold file content w Hpath Hfile), Hrows. cbn [fst].
    cbn [load_rows Nat.eqb negb].
    assert (H : forall n acc,
               load_rows (good ++ bad :: rest) (S n) acc = Raise e).
    { clear - Hgood Hbad. induction good as [|g good IH]; intros n acc.
      - simpl. now rewrite Hbad.
      - inversion Hgood as [|? ? Hg Hgood']; subst.
        destruct (well_formed_row_parses g Hg) as [cd Hcd].
        simpl. rewrite Hcd. now apply IH. }
    now rewrite H.
  - intros ->. now injection Hbad as <-.
Qed.

(** X8. The first record of the file plays no part in the result: two
    files whose records agree from the second on load alike. *)
Theorem load_ignores_header
    (file1 file2 content1 content2 : string) (header1 header2 : list string)
    (rows : list (list string)) (w1 w2 : world) :
  str_find file1 ".csv" <> -1 ->
  str_find file2 ".csv" <> -1 ->
  fs w1 !! file1 = Some content1 ->
  fs w2 !! file2 = Some content2 ->
  fst (csv_reader (text_lines content1)) = header1 :: rows ->
  fst (csv_reader (text_lines content2)) = header2 :: rows ->
  fst (load_market_data_file file1 w1) = fst (load_market_data_file file2 w2).
Proof.
  intros P1 P2 F1 F2 R1 R2.
  rewrite (load_unfold file1 content1 w1 P1 F1), R1.
  rewrite (load_unfold file2 content2 w2 P2 F2), R2.
  reflexivity.
Qed.

End LoaderOutcomes.

(** ** More on [dump_market_data_to_file] *)

Section DumpOutcomes.

Context {FM : FloatModel}.

(** What a dump does once its selection is known to give [res]. *)
Lemma dump_unfold
    (cls : Methods) (symbol interval file : string) (amount : option Z)
    (start end_ : option string) (a : Z) (s : string)
    (res : outcome (list record)) (w : world) :
  (amount = Some a /\
   get_last_candles cls (this w) symbol interval a = res) \/
  (amount = None /\ start = Some s /\
   get_candles cls (this w) symbol interval s end_ = res) ->
  exists ev,
    is_retrieval ev = true /\ is_file_access ev = false /\
    dump_market_data_to_file cls symbol interval file amount start end_ w =
      match res with
      | Return candles => write_candles file candles (log ev w)
      | Raise e => (Raise e, log ev w)
      end.
Proof.
  intros [[-> <-] | (-> & -> & <-)].
  - exists (EvGetLastCandles symbol interval a).
    split; [reflexivity |]. split; [reflexivity |].
    unfold dump_market_data_to_file, call_get_last_candles, bind, modify,
      get_world, lift. cbn [fst snd this log].
    now destruct (get_last_candles cls (this w) symbol interval a).
  - exists (EvGetCandles symbol interval s end_).
    split; [reflexivity |]. split; [reflexivity |].
    unfold dump_market_data_to_file, call_get_candles, bind, modify,
      get_world, lift. cbn [fst snd this log].
    now destruct (get_candles cls (this w) symbol interval s end_).
Qed.

Lemma file_accesses_log (ev : event) (w : world) :
  is_file_access ev = false ->
  file_accesses (trace (log ev w)) = file_accesses (trace w).
Proof.
  intros H. cbn [log trace]. rewrite file_accesses_app. simpl.
  rewrite H. apply app_nil_r.
Qed.

Lemma dump_retrieval_error_aux
    (cls : Methods) (symbol interval file : string) (amount : option Z)
    (start end_ : option string) (a : Z) (s : string) (e : exn) (w : world) :
  (amount = Some a /\
   get_last_candles cls (this w) symbol interval a = Raise e) \/
  (amount = None /\ start = Some s /\
   get_candles cls (this w) symbol interval s end_ = Raise e) ->
  fst (dump_market_data_to_file cls symbol interval file
         amount start end_ w) = Raise e /\
  fs (snd (dump_market_data_to_file cls symbol interval file
             amount start end_ w)) = fs w /\
  file_accesses (trace (snd (dump_market_data_to_file cls symbol interval file
                               amount start end_ w))) =
    file_accesses (trace w).
Proof.
  intros Hsel.
  destruct (dump_unfold cls symbol interval file amount start end_ a s _ w Hsel)
    as (ev & _ & Hev & ->).
  cbn [fst snd]. repeat split. now apply file_accesses_log.
Qed.

(** X9. An exception raised by the selected retrieval is the outcome of
    the dump; no file is opened and the file system stays as it was. *)
Theorem dump_retrieval_error
    (cls : Methods) (symbol interval file : string) (amount : option Z)
    (start end_ : option string) (a : Z) (s : string) (e : exn) (w : world) :
  (amount = Some a /\
   get_last_candles cls (this w) symbol interval a = Raise e) \/
  (amount = None /\ start = Some s /\
   get_candles cls (this w) symbol interval s end_ = Raise e) ->
  let r := dump_market_data_to_file cls symbol interval file
             amount start end_ w in
  fst r = Raise e /\
  fs (snd r) = fs w /\
  file_accesses (trace (snd r)) = file_accesses (trace w).
Proof.
  intros Hsel. cbv zeta. now apply (dump_retrieval_error_aux _ _ _ _ _ _ _ a s).
Qed.

(** X10. When the selected retrieval returns no candle, the dump ends in
    [IndexError] and the destination is left existing and empty,
    whatever it held before. *)
Theorem dump_empty_truncates
    (cls : Methods) (symbol interval file : string) (amount : option Z)
    (start end_ : option string) (a : Z) (s : string) (w : world) :
  (amount = Some a /\
   get_last_candles cls (this w) symbol interval a = Return []) \/
  (amount = None /\ start = Some s /\
   get_candles cls (this w) symbol interval s end_ = Return []) ->
  let r := dump_market_data_to_file cls symbol interval file
             amount start end_ w in
  fst r = Raise IndexError /\
  fs (snd r) = <[file := ""]> (fs w).
Proof.
  intros Hsel. cbv zeta.
  destruct (dump_unfold cls symbol interval file amount start end_ a s _ w Hsel)
    as (ev & _ & _ & ->).
  rewrite write_candles_empty. split; reflexivity.
Qed.

(** X11. When the selected retrieval returns at least one record, of any
    keys and values, the dump returns normally; the destination then
    holds the header row made of the first record's keys followed by one
    row per record, in place of whatever it held, and it is the only
    file opened. *)
Theorem dump_writes_file
    (cls : Methods) (symbol interval file : string) (amount : option Z)
    (start end_ : option string) (a : Z) (s : string)
    (c : record) (rest : list record) (w : world) :
  (amount = Some a /\
   get_last_candles cls (this w) symbol interval a = Return (c :: rest)) \/
  (amount = None /\ start = Some s /\
   get_candles cls (this w) symbol interval s end_ = Return (c :: rest)) ->
  let r := dump_market_data_to_file cls symbol interval file
             amount start end_ w in
  fst r = Return tt /\
  fs (snd r) = <[file := header_text c ++ rows_text (c :: rest)]> (fs w) /\
  file_accesses (trace (snd r)) =
    (file_accesses (trace w) ++ [EvOpenWrite file])%list.
Proof.
  intros Hsel. cbv zeta.
  destruct (dump_unfold cls symbol interval file amount start end_ a s _ w Hsel)
    as (ev & _ & Hev & ->).
  rewrite write_candles_content. cbn [fst snd set_fs fs trace log].
  repeat split.
  rewrite !file_accesses_app. simpl. rewrite Hev. simpl.
  now rewrite app_nil_r.
Qed.

Lemma write_rows_other (file other : string) (rows : list record) (w : world) :
  other <> file ->
  fs (snd (write_rows file rows w)) !! other = fs w !! other.
Proof.
  intros Hne. revert w. induction rows as [|r rows IH]; intros w; simpl;
    [reflexivity |].
  unfold bind, file_write, modify. simpl. rewrite IH. simpl.
  now apply lookup_insert_ne.
Qed.

Lemma write_candles_other (file other : string) (candles : list record)
    (w : world) :
  other <> file ->
  fs (snd (write_candles file candles w)) !! other = fs w !! other.
Proof.
  intros Hne. destruct candles as [|c rest].
  - rewrite write_candles_empty. simpl. now apply lookup_insert_ne.
  - rewrite write_candles_content. simpl. now apply lookup_insert_ne.
Qed.

(** X12. However a dump ends, no file other than its destination is
    created, removed or changed. *)
Theorem dump_touches_destination_only
    (cls : Methods) (symbol interval file other : string) (amount : option Z)
    (start end_ : option string) (w : world) :
  other <> file ->
  fs (snd (dump_market_data_to_file cls symbol interval file
             amount start end_ w)) !! other = fs w !! other.
Proof.
  intros Hne. unfold dump_market_data_to_file.
  destruct amount as [a|]; [| destruct start as [s|]; [| reflexivity]].
  - unfold call_get_last_candles, bind, modify, get_world, lift. simpl.
    destruct (get_last_candles cls (this w) symbol interval a); simpl;
      [| reflexivity].
    now rewrite write_candles_other.
  - unfold call_get_candles, bind, modify, get_world, lift. simpl.
    destruct (get_candles cls (this w) symbol interval s end_); simpl;
      [| reflexivity].
    now rewrite write_candles_other.
Qed.

(** X13. On the base class a dump with a selection ends in
    [NotImplementedError] before any file is opened: the file system is
    unchanged. *)
Theorem dump_on_base_class_fails
    (symbol interval file : string) (a : Z) (s : string)
    (start end_ : option string) (w : world) :
  let r1 := dump_market_data_to_file base_class symbol interval file
              (Some a) start end_ w in
  let r2 := dump_market_data_to_file base_class symbol interval file
              None (Some s) end_ w in
  (fst r1 = Raise NotImplementedError /\ fs (snd r1) = fs w /\
   file_accesses (trace (snd r1)) = file_accesses (trace w)) /\
  (fst r2 = Raise NotImplementedError /\ fs (snd r2) = fs w /\
   file_accesses (trace (snd r2)) = file_accesses (trace w)).
Proof.
  cbv zeta. split.
  - apply (dump_retrieval_error_aux base_class symbol interval file
             (Some a) start end_ a s NotImplementedError w).
    left. split; reflexivity.
  - apply (dump_retrieval_error_aux base_class symbol interval file
             None (Some s) end_ a s NotImplementedError w).
    right. repeat split; reflexivity.
Qed.

End DumpOutcomes.

(** ** Files without a quote character: one record per line *)

Lemma universal_newlines_keeps (p : ascii -> bool) (s : string) :
  p LF = false -> str_any p s = false ->
  str_any p (universal_newlines s) = false.
Proof.
  intros Hlf.
  induction s as [| c | c c' s IHs IHc] using string_ind2; intros H.
  - reflexivity.
  - simpl in *. destruct (Ascii.eqb c CR); simpl; [now rewrite Hlf |].
    exact H.
  - change (universal_newlines (String c (String c' s))) with
      (if Ascii.eqb c CR then
         if Ascii.eqb c' LF then String LF (universal_newlines s)
         else String LF (universal_newlines (String c' s))
       else String c (universal_newlines (String c' s))).
    cbn [str_any] in H.
    apply orb_false_iff in H as [Hc H']. pose proof H' as H''.
    apply orb_false_iff in H'' as [Hc' Hs].
    destruct (Ascii.eqb c CR).
    + destruct (Ascii.eqb c' LF); cbn [str_any]; rewrite Hlf; simpl.
      * now apply IHs.
      * apply IHc. cbn [str_any]. now rewrite Hc', Hs.
    + cbn [str_any]. rewrite Hc. simpl. apply IHc. cbn [str_any].
      now rewrite Hc', Hs.
Qed.

Lemma split_lines_keeps (p : ascii -> bool) (s : string) :
  str_any p s = false ->
  Forall (fun l => str_any p l = false) (split_lines s).
Proof.
  induction s as [|c s IH]; simpl; intros H; [constructor |].
  apply orb_false_iff in H as [Hc Hs]. specialize (IH Hs).
  destruct (Ascii.eqb c LF).
  - constructor; [| exact IH]. simpl. now rewrite Hc.
  - destruct (split_lines s) as [|l ls].
    + constructor; [| constructor]. simpl. now rewrite Hc.
    + inversion IH as [|? ? Hl Hls]; subst.
      constructor; [| exact Hls]. simpl. now rewrite Hc, Hl.
Qed.

Lemma process_char_unquoted (p p' : parser) (c : ascii) :
  is_dquote c = false -> unquoted p ->
  parse_process_char p (Ch c) = Return p' -> unquoted p'.
Proof.
  unfold is_dquote, unquoted. intros Hc [H1 H2].
  unfold parse_process_char, start_field.
  destruct (p_state p) eqn:Es; try congruence; rewrite ?Hc;
    destruct (is_newline c); try (destruct (Ascii.eqb c COMMA));
    intros [= <-]; simpl; rewrite ?Es; split; congruence.
Qed.

Lemma parse_chars_unquoted (l : string) (p p' : parser) :
  str_any is_dquote l = false -> unquoted p ->
  parse_chars p l = Return p' -> unquoted p'.
Proof.
  revert p. induction l as [|c l IH]; intros p Hl Hp; simpl.
  - now intros [= <-].
  - simpl in Hl. apply orb_false_iff in Hl as [Hc Hl].
    destruct (parse_process_char p (Ch c)) as [p1|e] eqn:E; [| discriminate].
    apply IH; [assumption |]. eapply process_char_unquoted; eauto.
Qed.

Lemma process_eol_unquoted (p p' : parser) :
  unquoted p -> parse_process_char p EOL = Return p' ->
  p_state p' = START_RECORD.
Proof.
  unfold unquoted. intros [H1 H2]. unfold parse_process_char, start_field.
  destruct (p_state p) eqn:Es; try congruence; intros [= <-]; simpl;
    congruence.
Qed.

(** A line without a quote character is a whole record. *)
Lemma parse_line_unquoted (l : string) :
  line_ok l = true -> str_any is_dquote l = false ->
  exists p, parse_line parse_reset l = Return p /\ p_state p = START_RECORD.
Proof.
  intros Hok Hq.
  assert (Hne : not_eating parse_reset) by (unfold not_eating; simpl; congruence).
  destruct (parse_line_ok l parse_reset Hok Hne) as (p & Hp & _).
  exists p. split; [exact Hp |].
  unfold parse_line in Hp.
  destruct (parse_chars parse_reset l) as [p1|e] eqn:E; [| discriminate].
  eapply process_eol_unquoted; [| exact Hp].
  eapply parse_chars_unquoted; [exact Hq | | exact E].
  split; simpl; congruence.
Qed.

Lemma reader_rows_unquoted (lines : list string) :
  Forall (fun l => line_ok l = true) lines ->
  Forall (fun l => str_any is_dquote l = false) lines ->
  reader_rows parse_reset lines = (map line_fields lines, None).
Proof.
  induction lines as [|l ls IH]; intros Hok Hq; [reflexivity |].
  inversion Hok as [|? ? Hl Hls]; subst.
  inversion Hq as [|? ? Ql Qls]; subst.
  destruct (parse_line_unquoted l Hl Ql) as (p & Hp & Hs).
  cbn [reader_rows map]. unfold line_fields at 1. rewrite Hp, Hs.
  cbn [is_START_RECORD]. now rewrite (IH Hls Qls).
Qed.

(** In a file that holds no double quote, the records the reader yields
    are the lines of the file, one record per line, each line split on
    its own. *)
Lemma quote_free_records_are_lines (content : string) :
  str_any is_dquote content = false ->
  csv_reader (text_lines content) =
    (map line_fields (text_lines content), None).
Proof.
  intros Hq. apply reader_rows_unquoted; [apply text_lines_ok |].
  apply split_lines_keeps, universal_newlines_keeps; [reflexivity | exact Hq].
Qed.

Lemma Forall2_map_left {A B C} (f : A -> B) (P : B -> C -> Prop)
    (l : list A) (k : list C) :
  Forall2 P (map f l) k -> Forall2 (fun a c => P (f a) c) l k.
Proof.
  revert k. induction l as [|a l IH]; intros k H; inversion H; subst;
    constructor; auto.
Qed.

Section QuoteFree.

Context {FM : FloatModel}.

(** X14. In a file that holds no double quote, the loader skips exactly
    the first line, whatever it holds, and reads every later line on its
    own: when each of them splits into five columns that read as floats,
    the result is one candle per line after the first, in order. *)
Theorem load_quote_free_file
    (file content first_line : string) (lines : list string) (w : world) :
  str_find file ".csv" <> -1 ->
  fs w !! file = Some content ->
  str_any is_dquote content = false ->
  text_lines content = first_line :: lines ->
  Forall (fun l => exists cd, row_parses (line_fields l) cd) lines ->
  exists candles,
    load_market_data_file file w =
      (Return (LTuple candles), log (EvOpenRead file) w) /\
    Forall2 (fun l cd => row_parses (line_fields l) cd) lines candles.
Proof.
  intros Hpath Hfile Hq Hlines Hall.
  rewrite (load_unfold file content w Hpath Hfile).
  rewrite (quote_free_records_are_lines content Hq), Hlines.
  cbn [fst map load_rows Nat.eqb negb].
  destruct (load_rows_data (map line_fields lines) 0 []) as (cds & Hl & Hc).
  { now apply Forall_map. }
  exists cds. rewrite Hl. split; [reflexivity |].
  now apply Forall2_map_left.
Qed.

End QuoteFree.

(** ** Dump, then load, for records with more than the five fields *)

Section PositionalRoundTrip.

Context {FM : FloatModel}.

Hypothesis float_round_trip : forall x, float_of_string (float_repr x) = Some x.

Lemma keys_as_fields (r : record) :
  map field_text (map (fun kv => VStr (fst kv)) r) = map fst r.
Proof. rewrite map_map. now apply map_ext. Qed.

Lemma plain_row_of_two (f f' : string) (rest : list string) :
  Forall (fun x => str_all csv_plain x = true) (f :: f' :: rest) ->
  plain_row (f :: f' :: rest).
Proof. intros H. split; [discriminate |]. split; [discriminate | exact H]. Qed.

Lemma header_text_plain (e e' : string * pyval) (rest : record) :
  Forall (fun k => str_all csv_plain k = true) (map fst (e :: e' :: rest)) ->
  header_text (e :: e' :: rest) =
    str_join "," (map fst (e :: e' :: rest)) ++ CRLF.
Proof.
  intros H. unfold header_text. cbn [map].
  rewrite writerow_plain.
  - cbn [map field_text]. now rewrite keys_as_fields.
  - cbn [map] in H. inversion H as [|? ? H1 H']; subst.
    inversion H' as [|? ? H2 H'']; subst.
    constructor; [exact H1 |]. constructor; [exact H2 |].
    rewrite <- keys_as_fields in H''. now apply Forall_map in H''.
Qed.

Lemma row_text_plain (e e' : string * pyval) (rest : record) :
  plain_values (e :: e' :: rest) ->
  writerow_text (map snd (e :: e' :: rest)) =
    str_join "," (row_fields (e :: e' :: rest)) ++ CRLF.
Proof.
  unfold plain_values, row_fields. intros H. cbn [map].
  rewrite writerow_plain; [reflexivity |].
  cbn [map] in H. inversion H as [|? ? H1 H']; subst.
  inversion H' as [|? ? H2 H'']; subst.
  constructor; [exact H1 |]. constructor; [exact H2 |].
  now apply Forall_map in H''.
Qed.

Lemma leading_floats_two (r cd : record) :
  leads_with_floats r cd -> exists e e' rest, r = e :: e' :: rest.
Proof.
  intros (k0 & k1 & k2 & k3 & k4 & ts & o & h & l & c & extra & -> & _).
  eauto.
Qed.

Lemma rows_text_lines_plain (seq cds : list record) :
  Forall2 leads_with_floats seq cds ->
  Forall plain_values seq ->
  rows_text seq =
    fold_right (fun l acc => l ++ CRLF ++ acc) ""
      (map (str_join ",") (map row_fields seq)).
Proof.
  induction 1 as [|r cd seq cds Hr _ IH]; intros Hall; [reflexivity |].
  inversion Hall as [|? ? Hp Hps]; subst.
  destruct (leading_floats_two r cd Hr) as (e & e' & rest & ->).
  cbn [rows_text].
  rewrite (row_text_plain e e' rest Hp), (IH Hps), append_assoc.
  reflexivity.
Qed.

Lemma plain_rows_of_seq (seq cds : list record) :
  Forall2 leads_with_floats seq cds ->
  Forall plain_values seq ->
  Forall plain_row (map row_fields seq).
Proof.
  induction 1 as [|r cd seq cds Hr _ IH]; intros Hall; [constructor |].
  inversion Hall as [|? ? Hp Hps]; subst.
  cbn [map]. constructor; [| now apply IH].
  destruct (leading_floats_two r cd Hr) as (x & x' & y & ->).
  unfold plain_values, row_fields in *. cbn [map] in *.
  now apply plain_row_of_two.
Qed.

Lemma leading_floats_parse (r cd : record) :
  leads_with_floats r cd -> candle_of_row (row_fields r) = Return cd.
Proof.
  intros (k0 & k1 & k2 & k3 & k4 & ts & o & h & l & c & extra & -> & ->).
  apply candle_of_row_return. exists ts, o, h, l, c.
  repeat split; apply float_at_return; eexists; (split; [reflexivity |]);
    apply float_round_trip.
Qed.

Lemma load_rows_positional (seq cds : list record) (n : nat)
    (acc : list record) :
  Forall2 leads_with_floats seq cds ->
  load_rows (map row_fields seq) (S n) acc = Return (acc ++ cds)%list.
Proof.
  intros H. revert n acc.
  induction H as [|r cd seq cds Hr _ IH]; intros n acc.
  - simpl. now rewrite app_nil_r.
  - cbn [map load_rows Nat.eqb negb]. rewrite (leading_floats_parse r cd Hr).
    rewrite IH, <- app_assoc. reflexivity.
Qed.

(** X15. Records that carry more than a candle survive the round trip by
    position.  Take a non-empty sequence in which every record starts
    with five float values, under any keys, whose values are all written
    as plain text, and whose first record has plain keys.  Dumped to a
    path that passes the loader's check and loaded from it, each record
    comes back as the candle of its first five values, named [ts],
    [open], [high], [low], [close]; further columns are dropped and the
    keys under which the values were dumped are forgotten. *)
Theorem dump_load_positional
    (cls : Methods) (symbol interval file : string) (amount : option Z)
    (start end_ : option string) (a : Z) (s : string)
    (first : record) (rest cds : list record) (w : world) :
  str_find file ".csv" <> -1 ->
  Forall2 leads_with_floats (first :: rest) cds ->
  Forall plain_values (first :: rest) ->
  Forall (fun k => str_all csv_plain k = true) (map fst first) ->
  (amount = Some a /\
   get_last_candles cls (this w) symbol interval a = Return (first :: rest)) \/
  (amount = None /\ start = Some s /\
   get_candles cls (this w) symbol interval s end_ = Return (first :: rest)) ->
  let r := dump_market_data_to_file cls symbol interval file
             amount start end_ w in
  fst r = Return tt /\
  fst (load_market_data_file file (snd r)) = Return (LTuple cds).
Proof.
  intros Hpath Hshape Hplain Hkeys Hsel. cbv zeta.
  destruct (dump_unfold cls symbol interval file amount start end_ a s _ w Hsel)
    as (ev & _ & _ & ->).
  rewrite write_candles_content. cbn [fst snd]. split; [reflexivity |].
  rewrite (load_unfold file (header_text first ++ rows_text (first :: rest)));
    [| exact Hpath | apply lookup_insert_eq].
  assert (Hrows :
    csv_reader (text_lines (header_text first ++ rows_text (first :: rest))) =
      (map fst first :: map row_fields (first :: rest), None)).
  { inversion Hshape as [|? cd ? cds' Hfirst _]; subst.
    destruct (leading_floats_two first cd Hfirst) as (e & e' & tl & ->).
    rewrite (header_text_plain e e' tl Hkeys).
    rewrite (rows_text_lines_plain _ _ Hshape Hplain), append_assoc.
    change (str_join "," (map fst (e :: e' :: tl)) ++ CRLF ++
            fold_right (fun l acc => l ++ CRLF ++ acc) ""
              (map (str_join ",") (map row_fields ((e :: e' :: tl) :: rest))))
      with (fold_right (fun l acc => l ++ CRLF ++ acc) ""
              (map (str_join ",")
                 (map fst (e :: e' :: tl) ::
                  map row_fields ((e :: e' :: tl) :: rest)))).
    assert (Hall : Forall plain_row
              (map fst (e :: e' :: tl) ::
               map row_fields ((e :: e' :: tl) :: rest))).
    { constructor.
      - cbn [map] in *. now apply plain_row_of_two.
      - eapply plain_rows_of_seq; eassumption. }
    rewrite text_lines_crlf.
    - rewrite map_map. now apply csv_reader_plain_rows.
    - apply Forall_map. eapply Forall_impl; [exact Hall |].
      intros fields (_ & _ & Hf). simpl. now apply str_join_no_newline. }
  rewrite Hrows. cbn [fst load_rows Nat.eqb negb].
  now rewrite (load_rows_positional _ _ 0 [] Hshape).
Qed.

End PositionalRoundTrip.

(** ** The further properties at the sample data *)

Lemma load_opens_csv_extension_witness :
  trace (snd (load_market_data_file (FM := ZFloat.model) "data.csv"
                empty_world)) = [EvOpenRead "data.csv"].
Proof.
  apply (load_opens_csv_extension (FM := ZFloat.model) "data.csv" empty_world).
  reflexivity.
Defined.

Lemma load_returns_candles_witness :
  Forall (is_candle (FM := ZFloat.model)) Sample.candles.
Proof.
  apply (load_returns_candles (FM := ZFloat.model) "x.csv"
           (with_file "x.csv" Sample.table empty_world) Sample.candles).
  reflexivity.
Defined.


Lemma load_first_malformed_row_witness :
  load_market_data_file (FM := ZFloat.model) "x.csv"
    (with_file "x.csv" Sample.blank_line_table empty_world) =
    (Raise IndexError,
     log (EvOpenRead "x.csv")
       (with_file "x.csv" Sample.blank_line_table empty_world)) /\
  (@nil string = [] -> IndexError = IndexError).
Proof.
  apply (load_first_malformed_row (FM := ZFloat.model) "x.csv"
           Sample.blank_line_table
           ["ts"; "open"; "high"; "low"; "close"] []
           [["1"; "10"; "12"; "9"; "11"]] []).
  - vm_compute. discriminate.
  - reflexivity.
  - reflexivity.
  - constructor; [| constructor].
    intros [Hlen | (i & s & Hi & Hs & Hnone)].
    + simpl in Hlen. lia.
    + destruct i as [|[|[|[|[|i]]]]]; try lia; simpl in Hs;
        injection Hs as <-; discriminate.
  - reflexivity.
Defined.

Lemma load_ignores_header_witness :
  fst (load_market_data_file (FM := ZFloat.model) "a.csv"
         (with_file "a.csv" Sample.table empty_world)) =
  fst (load_market_data_file (FM := ZFloat.model) "b.csv"
         (with_file "b.csv" Sample.renamed_table empty_world)).
Proof.
  apply (load_ignores_header (FM := ZFloat.model) "a.csv" "b.csv"
           Sample.table Sample.renamed_table
           ["ts"; "open"; "high"; "low"; "close"] ["time"; "o"; "h"; "l"; "c"]
           [["1"; "10"; "12"; "9"; "11"]; ["2"; "11"; "13"; "10"; "12"]]).
  - vm_compute. discriminate.
  - vm_compute. discriminate.
  - reflexivity.
  - reflexivity.
  - reflexivity.
  - reflexivity.
Defined.

Lemma dump_retrieval_error_witness :
  let r := dump_market_data_to_file (FM := ZFloat.model)
             (exchange_returning (Raise (ExchangeError "timeout")))
             "BTC" "1h" "data.csv" (Some 5) None None
             (with_file "data.csv" Sample.table empty_world) in
  fst r = Raise (ExchangeError "timeout") /\
  fs (snd r) = fs (with_file "data.csv" Sample.table empty_world) /\
  file_accesses (trace (snd r)) =
    file_accesses (trace (with_file "data.csv" Sample.table empty_world)).
Proof.
  apply (dump_retrieval_error (FM := ZFloat.model)
           (exchange_returning (Raise (ExchangeError "timeout")))
           "BTC" "1h" "data.csv" (Some 5) None None 5 "").
  left. split; reflexivity.
Defined.

Lemma dump_empty_truncates_witness :
  let r := dump_market_data_to_file (FM := ZFloat.model) empty_exchange
             "BTC" "1h" "data.csv" None (Some "2020-01-01") None
             (with_file "data.csv" Sample.table empty_world) in
  fst r = Raise IndexError /\
  fs (snd r) =
    <["data.csv" := ""]> (fs (with_file "data.csv" Sample.table empty_world)).
Proof.
  apply (dump_empty_truncates (FM := ZFloat.model) empty_exchange
           "BTC" "1h" "data.csv" None (Some "2020-01-01") None 0 "2020-01-01").
  right. repeat split; reflexivity.
Defined.

Lemma dump_writes_file_witness :
  let w := with_file "data.csv" "old" empty_world in
  let r := dump_market_data_to_file (FM := ZFloat.model) Sample.exchange
             "BTC" "1h" "data.csv" (Some 2) None None w in
  fst r = Return tt /\
  fs (snd r) =
    <["data.csv" :=
        header_text (candle (FM := ZFloat.model) 1 10 12 9 11) ++
        rows_text Sample.candles]> (fs w) /\
  file_accesses (trace (snd r)) =
    (file_accesses (trace w) ++ [EvOpenWrite "data.csv"])%list.
Proof.
  apply (dump_writes_file (FM := ZFloat.model) Sample.exchange
           "BTC" "1h" "data.csv" (Some 2) None None 2 "").
  left. split; reflexivity.
Defined.

Lemma dump_touches_destination_only_witness :
  fs (snd (dump_market_data_to_file (FM := ZFloat.model) Sample.exchange
             "BTC" "1h" "data.csv" (Some 2) None None
             (with_file "keep.csv" "kept" empty_world))) !! "keep.csv" =
  fs (with_file "keep.csv" "kept" empty_world) !! "keep.csv".
Proof.
  apply (dump_touches_destination_only (FM := ZFloat.model) Sample.exchange
           "BTC" "1h" "data.csv" "keep.csv" (Some 2) None None).
  discriminate.
Defined.

Lemma load_quote_free_file_witness :
  exists candles,
    load_market_data_file (FM := ZFloat.model) "x.csv"
      (with_file "x.csv" Sample.table empty_world) =
      (Return (LTuple candles),
       log (EvOpenRead "x.csv") (with_file "x.csv" Sample.table empty_world)) /\
    Forall2 (fun l cd => row_parses (FM := ZFloat.model) (line_fields l) cd)
      ["1,10,12,9,11" ++ NL; "2,11,13,10,12" ++ NL] candles.
Proof.
  apply (load_quote_free_file (FM := ZFloat.model) "x.csv" Sample.table
           ("ts,open,high,low,close" ++ NL)).
  - vm_compute. discriminate.
  - reflexivity.
  - reflexivity.
  - reflexivity.
  - repeat constructor.
    + exists (candle (FM := ZFloat.model) 1 10 12 9 11).
      exists "1", "10", "12", "9", "11", 1, 10, 12, 9, 11.
      repeat split; reflexivity.
    + exists (candle (FM := ZFloat.model) 2 11 13 10 12).
      exists "2", "11", "13", "10", "12", 2, 11, 13, 10, 12.
      repeat split; reflexivity.
Defined.

Lemma dump_load_positional_witness :
  let r := dump_market_data_to_file (FM := ZFloat.model)
             (exchange_returning (Return Sample.rich_candles))
             "BTC" "1h" "x.csv" (Some 2) None None empty_world in
  fst r = Return tt /\
  fst (load_market_data_file (FM := ZFloat.model) "x.csv" (snd r)) =
    Return (LTuple Sample.candles).
Proof.
  apply (dump_load_positional (FM := ZFloat.model) ZFloat_round_trip
           (exchange_returning (Return Sample.rich_candles))
           "BTC" "1h" "x.csv" (Some 2) None None 2 ""
           Sample.rich_first [Sample.rich_second] Sample.candles empty_world).
  - vm_compute. discriminate.
  - repeat constructor; unfold leads_with_floats; do 11 eexists;
      split; reflexivity.
  - repeat constructor.
  - repeat constructor.
  - left. split; reflexivity.
Defined.
